(** * The Simple Reminder service worker (service-worker.js)

    A shallow embedding of the worker's event handlers:
    - [on_fetch]    the fetch listener (bypass rule, cache first, network
                    fallback, synthesized 408 response);
    - [on_activate] the activate listener (stale cache deletion, then
                    claiming the clients);
    - [on_push]     the push listener up to the call of showNotification
                    (default descriptor, payload merge, platform pass);
    - [on_message]  the message listener (three independent tests);
    - [on_install]  the install listener (manifest population);
    - [on_notificationclick] and [on_pushsubscriptionchange], over a trace
                    of window, timer and push service calls.

    Conventions.  JS strings are carried as byte strings (UTF-8), JS
    numbers occurring in the program are integers and are carried as [Z],
    a JS object is a finite map from property names to values.  A promise
    is a computation over the worker's world that settles as fulfilled or
    rejected; a synchronous block completes normally or throws.  Both are
    written with [Result].  Console output and platform calls are recorded
    in the world's trace, in program order.

    The platform is modelled as far as the listeners use it.  The cache
    storage is a list of named key-value stores: a lookup matches the
    request exactly, a put replaces the entry of the request and succeeds,
    a delete removes the named cache.  The network, the notification
    permission and the open windows are given by the environment. *)

From Stdlib Require Import Ascii String.
From stdpp Require Import gmap strings list fin_maps pretty.

Set Warnings "-register-all".

Local Open Scope Z_scope.

(** ** Values *)

Inductive Value : Type :=
  | VUndef
  | VNull
  | VBool (b : bool)
  | VNum (n : Z)
  | VStr (s : string)
  | VArr (l : list Value)
  | VObj (m : gmap string Value).

Abbreviation JSObject := (gmap string Value).

(** ToBoolean. *)
Definition truthy (v : Value) : bool :=
  match v with
  | VUndef | VNull => false
  | VBool b => b
  | VNum n => negb (n =? 0)
  | VStr s => negb (String.eqb s "")
  | VArr _ | VObj _ => true
  end.

(** [v.k] on a value that is not null or undefined.  Of the property names
    this program reads from a received value ("type"), none is defined on a
    primitive or on an array, so only objects answer. *)
Definition get_prop (v : Value) (k : string) : Value :=
  match v with
  | VObj m => default VUndef (m !! k)
  | _ => VUndef
  end.

(** [v === 'literal']. *)
Definition strict_eq_str (v : Value) (lit : string) : bool :=
  match v with
  | VStr s => bool_decide (s = lit)
  | _ => false
  end.

(** The own enumerable properties copied by an object spread [...v]:
    the fields of an object, the indices of an array or of a string,
    nothing for the other primitives.  A string has one index per byte
    here and one per UTF-16 code unit in JS; the two agree on ASCII text. *)
Fixpoint chars (s : string) : list Value :=
  match s with
  | EmptyString => []
  | String a s' => VStr (String a EmptyString) :: chars s'
  end.

Definition indexed (l : list Value) : JSObject :=
  list_to_map (imap (λ (i : nat) v, (pretty i, v)) l).

Definition own_props (v : Value) : JSObject :=
  match v with
  | VObj m => m
  | VArr l => indexed l
  | VStr s => indexed (chars s)
  | _ => ∅
  end.

(** [{...target, ...src}]: later properties win. *)
Definition spread (target : JSObject) (src : Value) : JSObject :=
  own_props src ∪ target.

(** ** Strings *)

(** String.prototype.includes. *)
Fixpoint includes (s sub : string) : bool :=
  String.prefix sub s ||
  match s with
  | EmptyString => false
  | String _ s' => includes s' sub
  end.

(** The source's literals are written here with an apostrophe wherever the
    source has a double quote character; [q] puts the double quotes back.
    No literal of the source contains an apostrophe of its own. *)
Definition dquote : ascii := ascii_of_nat 34.

Fixpoint q (s : string) : string :=
  match s with
  | EmptyString => EmptyString
  | String a s' =>
      String (if bool_decide (a = ascii_of_nat 39) then dquote else a) (q s')
  end.

(** JSON.stringify, for an object literal whose properties are strings,
    listed in source order. *)
Definition hex_digit (n : nat) : ascii :=
  ascii_of_nat (if (n <? 10)%nat then 48 + n else 87 + n)%nat.

Definition json_escape_char (a : ascii) : string :=
  let n := nat_of_ascii a in
  if bool_decide (n = 34%nat) then String (ascii_of_nat 92) (String dquote EmptyString)
  else if bool_decide (n = 92%nat) then String a (String a EmptyString)
  else if bool_decide (n = 8%nat) then String (ascii_of_nat 92) "b"
  else if bool_decide (n = 9%nat) then String (ascii_of_nat 92) "t"
  else if bool_decide (n = 10%nat) then String (ascii_of_nat 92) "n"
  else if bool_decide (n = 12%nat) then String (ascii_of_nat 92) "f"
  else if bool_decide (n = 13%nat) then String (ascii_of_nat 92) "r"
  else if (n <? 32)%nat then
    String (ascii_of_nat 92)
      ("u00" +:+ String (hex_digit (n / 16)) (String (hex_digit (n mod 16)) EmptyString))
  else String a EmptyString.

Fixpoint json_escape (s : string) : string :=
  match s with
  | EmptyString => EmptyString
  | String a s' => json_escape_char a +:+ json_escape s'
  end.

Definition json_quote (s : string) : string :=
  String dquote (json_escape s +:+ String dquote EmptyString).

Definition JSON_stringify_fields (fields : list (string * string)) : string :=
  "{" +:+
  String.concat "," (map (λ kv, json_quote kv.1 +:+ ":" +:+ json_quote kv.2) fields)
  +:+ "}".

(** ** Completions and settled promises *)

Inductive Result (A : Type) : Type :=
  | Ok (a : A)
  | Err (e : string).
Arguments Ok {A} a.
Arguments Err {A} e.

(** try { c } catch (e) { h e } *)
Definition try_catch {A} (c : Result A) (h : string → Result A) : Result A :=
  match c with
  | Ok a => Ok a
  | Err e => h e
  end.

(** ** Requests, responses and the cache storage *)

Record URL : Type := mkURL {
  hostname : string;
  port : string;
  pathname : string
}.

Record Request : Type := mkRequest {
  url : URL;
  method : string
}.

Record Response : Type := mkResponse {
  status : Z;
  headers : list (string * string);
  body : string
}.

#[global] Instance URL_eq_dec : EqDecision URL.
Proof. solve_decision. Defined.

#[global] Instance Request_eq_dec : EqDecision Request.
Proof. solve_decision. Defined.

#[global] Instance Response_eq_dec : EqDecision Response.
Proof. solve_decision. Defined.

(** response.clone() *)
Definition clone (r : Response) : Response :=
  {| status := status r; headers := headers r; body := body r |}.

(** A cache is keyed by the request; the storage lists the named caches in
    creation order, each name once. *)
Abbreviation Cache := (list (Request * Response)).
Abbreviation CacheStorage := (list (string * Cache)).

(** The work the fetch listener leaves behind without awaiting it:
    caches.open(name).then(cache => cache.put(request, response)). *)
Inductive Task : Type :=
  | TOpenThenPut (name : string) (request : Request) (response : Response).

Inductive Effect : Type :=
  | ELog (msg : string)
  | EError (msg : string)
  | ECachesMatch (request : Request)
  | EFetch (request : Request)
  | ECachesOpen (name : string)
  | ECachePut (name : string) (request : Request) (response : Response)
  | ECachesKeys
  | ECachesDelete (name : string)
  | EClientsClaim
  | ESkipWaiting
  | EShowNotification (title : Value) (options : JSObject)
  | EClientPostMessage (client : nat) (message : JSObject)
  | EPortPostMessage (port_index : nat) (message : JSObject).

(** The state the listeners act on: the cache storage, whether the clients
    have been claimed, the detached work not yet run, and the trace. *)
Record World : Type := mkWorld {
  caches : CacheStorage;
  claimed : bool;
  pending : list Task;
  trace : list Effect
}.

(** What the worker reads from its surroundings and does not change:
    what the network answers to a request ([Err] for a failed fetch),
    self.location.origin, Date.now(), navigator.userAgent, whether
    notifications may be displayed, and the open client windows. *)
Record Platform : Type := mkPlatform {
  network : Request → Result Response;
  origin : string;
  now : Z;
  userAgent : string;
  permitted : bool;
  windows : list nat
}.

Definition Promise (A : Type) : Type := World → Result A * World.

Definition resolve {A} (a : A) : Promise A := λ w, (Ok a, w).

Definition then_ {A B} (p : Promise A) (f : A → Promise B) : Promise B :=
  λ w, match p w with
       | (Ok a, w') => f a w'
       | (Err e, w') => (Err e, w')
       end.

Definition catch_ {A} (p : Promise A) (h : string → Promise A) : Promise A :=
  λ w, match p w with
       | (Ok a, w') => (Ok a, w')
       | (Err e, w') => h e w'
       end.

Notation "x <~ p ;; k" := (then_ p (λ x, k))
  (at level 100, p at next level, right associativity, only parsing).

Definition emit (e : Effect) (w : World) : World :=
  {| caches := caches w; claimed := claimed w; pending := pending w;
     trace := trace w ++ [e] |}.

Definition with_caches (cs : CacheStorage) (w : World) : World :=
  {| caches := cs; claimed := claimed w; pending := pending w; trace := trace w |}.

Definition console_log (msg : string) : Promise unit :=
  λ w, (Ok tt, emit (ELog msg) w).

Definition console_error (msg : string) : Promise unit :=
  λ w, (Ok tt, emit (EError msg) w).

(** *** The platform's cache storage, clients and network *)

Fixpoint cache_match (c : Cache) (request : Request) : option Response :=
  match c with
  | [] => None
  | (k, r) :: c' => if decide (k = request) then Some r else cache_match c' request
  end.

(** caches.match(request): the first cache, in creation order, that holds
    the request. *)
Fixpoint storage_match (cs : CacheStorage) (request : Request) : option Response :=
  match cs with
  | [] => None
  | (_, c) :: cs' =>
      match cache_match c request with
      | Some r => Some r
      | None => storage_match cs' request
      end
  end.

Definition has_cache (name : string) (cs : CacheStorage) : bool :=
  bool_decide (name ∈ cs.*1).

Definition cache_put_entry (c : Cache) (request : Request) (response : Response) : Cache :=
  filter (λ kv, kv.1 ≠ request) c ++ [(request, response)].

Fixpoint storage_put (cs : CacheStorage) (name : string)
    (request : Request) (response : Response) : CacheStorage :=
  match cs with
  | [] => []
  | (n, c) :: cs' =>
      if decide (n = name) then (n, cache_put_entry c request response) :: cs'
      else (n, c) :: storage_put cs' name request response
  end.

Definition storage_delete (cs : CacheStorage) (name : string) : CacheStorage :=
  filter (λ nc, nc.1 ≠ name) cs.

Definition caches_match (request : Request) : Promise (option Response) :=
  λ w, (Ok (storage_match (caches w) request), emit (ECachesMatch request) w).

(** caches.open(name) creates the cache when it does not exist; the handle
    it resolves to is the cache's name. *)
Definition caches_open (name : string) : Promise string :=
  λ w, (Ok name,
        emit (ECachesOpen name)
          (with_caches (if has_cache name (caches w) then caches w
                        else caches w ++ [(name, [])]) w)).

Definition cache_put (cache : string) (request : Request) (response : Response)
    : Promise unit :=
  λ w, (Ok tt,
        emit (ECachePut cache request response)
          (with_caches (storage_put (caches w) cache request response) w)).

Definition caches_keys : Promise (list string) :=
  λ w, (Ok (caches w).*1, emit ECachesKeys w).

Definition caches_delete (name : string) : Promise bool :=
  λ w, (Ok (has_cache name (caches w)),
        emit (ECachesDelete name) (with_caches (storage_delete (caches w) name) w)).

Definition clients_claim : Promise unit :=
  λ w, (Ok tt,
        emit EClientsClaim
          {| caches := caches w; claimed := true; pending := pending w;
             trace := trace w |}).

Definition fetch (env : Platform) (request : Request) : Promise Response :=
  λ w, (network env request, emit (EFetch request) w).

(** Promise.all: every promise of the list has been started; the result is
    rejected when one of them is. *)
Fixpoint promise_all {A} (ps : list (Promise A)) (w : World) {struct ps}
    : Result (list A) * World :=
  match ps with
  | [] => (Ok [], w)
  | p :: ps' =>
      let '(r, w1) := p w in
      let '(rs, w2) := promise_all ps' w1 in
      (match r, rs with
       | Ok a, Ok l => Ok (a :: l)
       | Err e, _ => Err e
       | Ok _, Err e => Err e
       end, w2)
  end.

(** A promise chain that is started and not awaited: it is queued, and runs
    after the listener has returned. *)
Definition detach (t : Task) : Promise unit :=
  λ w, (Ok tt,
        {| caches := caches w; claimed := claimed w; pending := pending w ++ [t];
           trace := trace w |}).



(** ** The worker *)

Definition CACHE_NAME : string := "simple-reminders-v1".

(** *** activate *)

Definition delete_if_stale (cacheName : string) : Promise (option bool) :=
  if bool_decide (cacheName ≠ CACHE_NAME) then
    _ <~ console_log "🗑️ SW: Deleting old cache:" ;;
    deleted <~ caches_delete cacheName ;;
    resolve (Some deleted)
  else resolve None.

Definition on_activate : Promise unit :=
  _ <~ console_log "✅ SW: Activating Simple Reminder Service Worker" ;;
  _ <~ (cacheNames <~ caches_keys ;;
        promise_all (map delete_if_stale cacheNames)) ;;
  _ <~ console_log "🎯 SW: Taking control of all pages" ;;
  clients_claim.

(** *** fetch *)

Definition is_bypass (u : URL) : bool :=
  includes (hostname u) "192.168." || bool_decide (port u = "3001").

Definition error_response : Response :=
  {| status := 408;
     headers := [("Content-Type", "application/json")];
     body := JSON_stringify_fields
               [("error", "Network error");
                ("message", "Please check your connection and try again")] |}.

(** The promise handed to event.respondWith. *)
Definition cache_first (env : Platform) (request : Request) : Promise Response :=
  catch_
    (cached <~ caches_match request ;;
     match cached with
     | Some response =>
         _ <~ console_log "📦 SW: Serving from cache:" ;;
         resolve response
     | None =>
         _ <~ console_log "🌐 SW: Fetching from network:" ;;
         response <~ fetch env request ;;
         _ <~ (if status response =? 200
               then detach (TOpenThenPut CACHE_NAME request (clone response))
               else resolve tt) ;;
         resolve response
     end)
    (λ error,
       _ <~ console_error "❌ SW: Fetch failed:" ;;
       resolve error_response).

Inductive FetchOutcome : Type :=
  | NotIntercepted
  | RespondWith (r : Result Response).

Definition on_fetch (env : Platform) (request : Request) (w : World)
    : FetchOutcome * World :=
  if is_bypass (url request) then
    (NotIntercepted, emit (ELog "🔄 SW: Bypassing cache for Pi server request:") w)
  else
    let '(r, w') := cache_first env request w in
    (RespondWith r, w').

(** What the page that issued the request receives: the worker's answer
    when the listener called respondWith, the browser's own network fetch
    when it returned without doing so. *)
Definition page_response (env : Platform) (request : Request) (w : World)
    : Result Response :=
  match (on_fetch env request w).1 with
  | NotIntercepted => network env request
  | RespondWith r => r
  end.

(** *** push *)

(** event.data when the push carries a payload: json() returns the parsed
    payload or throws, text() returns the payload as a string. *)
Record PushMessageData : Type := mkPushMessageData {
  json : Result Value;
  text : string
}.

Definition default_icon : string :=
  q "data:image/svg+xml,<svg xmlns='http://www.w3.org/2000/svg' viewBox='0 0 100 100'><circle cx='50' cy='50' r='40' fill='%233b82f6'/><text x='50' y='65' text-anchor='middle' font-size='30' fill='white'>⏰</text></svg>".

Definition default_badge : string :=
  q "data:image/svg+xml,<svg xmlns='http://www.w3.org/2000/svg' viewBox='0 0 100 100'><circle cx='50' cy='50' r='40' fill='%23ef4444'/><text x='50' y='65' text-anchor='middle' font-size='30' fill='white'>🔔</text></svg>".

Definition ios_badge : string :=
  q "data:image/svg+xml,<svg xmlns='http://www.w3.org/2000/svg' viewBox='0 0 96 96'><circle cx='48' cy='48' r='40' fill='%23ef4444'/><text x='48' y='65' text-anchor='middle' font-size='24' fill='white'>🔔</text></svg>".

Definition open_icon : string :=
  q "data:image/svg+xml,<svg xmlns='http://www.w3.org/2000/svg' viewBox='0 0 24 24' fill='white'><path d='M19 13h-6v6h-2v-6H5v-2h6V5h2v6h6v2z'/></svg>".

Definition dismiss_icon : string :=
  q "data:image/svg+xml,<svg xmlns='http://www.w3.org/2000/svg' viewBox='0 0 24 24' fill='white'><path d='M19 6.41L17.59 5 12 10.59 6.41 5 5 6.41 10.59 12 5 17.59 6.41 19 12 13.41 17.59 19 19 17.59 13.41 12z'/></svg>".

Definition default_vibrate : Value :=
  VArr [VNum 200; VNum 100; VNum 200; VNum 100; VNum 200].

(** The object literal of lines 89-102. *)
Definition default_notificationData (env : Platform) : JSObject :=
  list_to_map
    [("title", VStr "⏰ Reminder");
     ("body", VStr "You have a scheduled reminder!");
     ("icon", VStr default_icon);
     ("badge", VStr default_badge);
     ("tag", VStr "reminder-notification");
     ("requireInteraction", VBool true);
     ("vibrate", default_vibrate);
     ("data", VObj (list_to_map
                      [("url", VStr (origin env));
                       ("timestamp", VNum (now env));
                       ("source", VStr "pi-reminder-server")]))].

(** { ...notificationData, ...pushData, requireInteraction: true,
      vibrate: [200, 100, 200, 100, 200] } *)
Definition merge_pushData (notificationData : JSObject) (pushData : Value) : JSObject :=
  <["vibrate" := default_vibrate]>
    (<["requireInteraction" := VBool true]>
       (spread (spread ∅ (VObj notificationData)) pushData)).

(** Lines 104-123: the value of notificationData after the payload has
    been looked at. *)
Definition parse_push_data (notificationData : JSObject)
    (data : option PushMessageData) : Result JSObject :=
  match data with
  | None => Ok notificationData
  | Some d =>
      try_catch
        (match json d with
         | Ok pushData => Ok (merge_pushData notificationData pushData)
         | Err e => Err e
         end)
        (λ e, Ok (<["body" := VStr (text d)]> notificationData))
  end.

(** /iPad|iPhone|iPod/.test(userAgent) *)
Definition isIOS (env : Platform) : bool :=
  includes (userAgent env) "iPad" || includes (userAgent env) "iPhone"
  || includes (userAgent env) "iPod".

Definition action_buttons : Value :=
  VArr
    [VObj (list_to_map
             [("action", VStr "open");
              ("title", VStr "📱 Open App");
              ("icon", VStr open_icon)]);
     VObj (list_to_map
             [("action", VStr "dismiss");
              ("title", VStr "✕ Dismiss");
              ("icon", VStr dismiss_icon)])].

(** Lines 125-153. *)
Definition platform_pass (env : Platform) (notificationData : JSObject) : JSObject :=
  if isIOS env then
    <["badge" := VStr ios_badge]>
      (<["requireInteraction" := VBool true]>
         (<["vibrate" := VArr [VNum 200; VNum 100; VNum 200]]>
            (delete "actions" notificationData)))
  else
    <["actions" := action_buttons]> notificationData.

(** The value of notificationData when showNotification is called. *)
Definition notificationData (env : Platform) (data : option PushMessageData)
    : Result JSObject :=
  match parse_push_data (default_notificationData env) data with
  | Ok nd => Ok (platform_pass env nd)
  | Err e => Err e
  end.

Definition log_when (b : bool) (msg : string) : Promise unit :=
  if b then console_log msg else resolve tt.

Definition payload_parsed (data : option PushMessageData) : option bool :=
  match data with
  | None => None
  | Some d => Some (match json d with Ok _ => true | Err _ => false end)
  end.

(** registration.showNotification is rejected when the platform refuses to
    display. *)
Definition showNotification (env : Platform) (title : Value) (options : JSObject)
    : Promise unit :=
  λ w, (if permitted env then Ok tt else Err "NotAllowedError",
        emit (EShowNotification title options) w).

Definition clients_matchAll (env : Platform) : Promise (list nat) :=
  resolve (windows env).

Definition client_postMessage (client : nat) (message : JSObject) : Promise unit :=
  λ w, (Ok tt, emit (EClientPostMessage client message) w).

Fixpoint for_each {A} (l : list A) (f : A → Promise unit) : Promise unit :=
  match l with
  | [] => resolve tt
  | a :: l' => _ <~ f a ;; for_each l' f
  end.

(** The push listener.  The descriptor is the one computed by
    [notificationData]; the console output of lines 104-153 is emitted
    here, in the order of the source. *)
Definition on_push (env : Platform) (data : option PushMessageData) : Promise unit :=
  _ <~ console_log "📱 SW: Push notification received from Pi server!" ;;
  match notificationData env data with
  | Err e => λ w, (Err e, w)
  | Ok nd =>
      _ <~ log_when (bool_decide (payload_parsed data = Some true))
             "📦 SW: Parsed Pi server data:" ;;
      _ <~ log_when (bool_decide (payload_parsed data = Some false))
             "📝 SW: Push data as text:" ;;
      _ <~ log_when (isIOS env)
             "🍎 SW: iOS device detected - optimizing notification" ;;
      _ <~ console_log "📱 SW: Showing Pi reminder notification:" ;;
      _ <~ console_log "📋 SW: Notification body:" ;;
      catch_
        (_ <~ showNotification env (default VUndef (nd !! "title")) nd ;;
         _ <~ console_log "✅ SW: Pi reminder notification displayed successfully" ;;
         clients <~ clients_matchAll env ;;
         if bool_decide (clients = []) then resolve tt
         else
           _ <~ for_each clients (λ client,
                  client_postMessage client
                    (list_to_map
                       [("type", VStr "REMINDER_NOTIFICATION_SHOWN");
                        ("notification", VObj nd);
                        ("timestamp", VNum (now env))])) ;;
           console_log "📨 SW: Notified app about Pi reminder notification")
        (λ error, console_error "❌ SW: Error showing Pi reminder notification:")
  end.

(** *** message *)

Definition skip_waiting : Promise unit :=
  λ w, (Ok tt, emit ESkipWaiting w).

(** event.ports[i].postMessage(message): a TypeError when the event carries
    no such port. *)
Definition port_postMessage (ports : nat) (i : nat) (message : JSObject)
    : Promise unit :=
  λ w, if (i <? ports)%nat then (Ok tt, emit (EPortPostMessage i message) w)
       else (Err "TypeError", w).

(** event.data && event.data.type === tag *)
Definition type_is (data : Value) (tag : string) : bool :=
  truthy data && strict_eq_str (get_prop data "type") tag.

Definition on_message (data : Value) (ports : nat) : Promise unit :=
  _ <~ console_log "📨 SW: Received message from app:" ;;
  _ <~ (if type_is data "SKIP_WAITING" then
          _ <~ console_log "⏭️ SW: Skip waiting requested" ;;
          skip_waiting
        else resolve tt) ;;
  _ <~ (if type_is data "GET_VERSION" then
          port_postMessage ports 0
            (list_to_map
               [("version", VStr CACHE_NAME); ("type", VStr "simple-reminders")])
        else resolve tt) ;;
  (if type_is data "SYNC_REMINDERS" then
     console_log "🔄 SW: Sync reminders message received"
   else resolve tt).

(** *** install *)

Definition urlsToCache : list string :=
  ["./"; "./index.html"; "./app.js"; "./manifest.json"].

(** response.ok *)
Definition response_ok (r : Response) : bool :=
  (200 <=? status r) && (status r <=? 299).

Definition reject {A} (e : string) : Promise A := λ w, (Err e, w).

(** cache.addAll(urls): every url is requested; when a request fails or
    its response is not ok the promise is rejected and nothing is stored,
    otherwise each response is stored under its request.  [locate] is the
    platform's resolution of a url against the worker's location. *)
Definition cache_addAll (env : Platform) (locate : string → Request)
    (cache : string) (urls : list string) : Promise unit :=
  responses <~ promise_all (map (λ u, fetch env (locate u)) urls) ;;
  if forallb response_ok responses then
    for_each (zip (map locate urls) responses)
      (λ entry, cache_put cache entry.1 entry.2)
  else reject "TypeError".

(** The install listener.  self.skipWaiting() is called once the opening of
    the cache has been started, before the cache is filled. *)
Definition on_install (env : Platform) (locate : string → Request) : Promise unit :=
  _ <~ console_log "🔧 SW: Installing Simple Reminder Service Worker..." ;;
  cache <~ caches_open CACHE_NAME ;;
  _ <~ skip_waiting ;;
  _ <~ console_log "📦 SW: Caching app files" ;;
  cache_addAll env locate cache urlsToCache.

(** *** notificationclick and pushsubscriptionchange *)

(** These two listeners act on windows, timers and the push service, not
    on the cache storage; their calls are recorded in a trace of their
    own. *)
Record WindowClient : Type := mkWindowClient {
  client_id : nat;
  client_url : string;
  focusable : bool
}.

Inductive Call : Type :=
  | CLog (msg : string)
  | CError (msg : string)
  | CNotificationClose
  | CMatchAll
  | CFocus (client : nat)
  | COpenWindow (target : string)
  | CSetTimeout (delay : Z)
  | CPostMessage (client : nat) (message : JSObject)
  | CSubscribe (userVisibleOnly : bool) (key : Value)
  | CFetchPost (target : string) (contentType : string) (content : string).

(** event.action and event.notification.data of a notificationclick. *)
Record NotificationEvent : Type := mkNotificationEvent {
  action : string;
  notification_data : Value
}.

(** The callback handed to setTimeout by the listener: it posts the
    clicked message to the client, when there is one. *)
Inductive Timer : Type :=
  | TPostClicked (client : option WindowClient) (event : NotificationEvent).

Record Desk : Type := mkDesk {
  timers : list (Z * Timer);
  calls : list Call
}.

(** The open windows in the order clients.matchAll lists them, what
    client.focus() settles to, and clients.openWindow when the platform has
    it: it settles to the new window's client, or to null. *)
Record Windows : Type := mkWindows {
  window_clients : list WindowClient;
  focus : WindowClient → Result WindowClient;
  openWindow : option (string → Result (option WindowClient))
}.

Definition Async (S A : Type) : Type := S → Result A * S.

Definition pure_ {S A} (a : A) : Async S A := λ s, (Ok a, s).

Definition throw {S A} (e : string) : Async S A := λ s, (Err e, s).

Definition bind_ {S A B} (p : Async S A) (f : A → Async S B) : Async S B :=
  λ s, match p s with
       | (Ok a, s') => f a s'
       | (Err e, s') => (Err e, s')
       end.

Definition rescue {S A} (p : Async S A) (h : string → Async S A) : Async S A :=
  λ s, match p s with
       | (Ok a, s') => (Ok a, s')
       | (Err e, s') => h e s'
       end.

Notation "x <~~ p ;; k" := (bind_ p (λ x, k))
  (at level 100, p at next level, right associativity, only parsing).

Definition call (c : Call) (d : Desk) : Desk :=
  {| timers := timers d; calls := calls d ++ [c] |}.

Definition say (msg : string) : Async Desk unit := λ d, (Ok tt, call (CLog msg) d).

Definition complain (msg : string) : Async Desk unit :=
  λ d, (Ok tt, call (CError msg) d).

Definition notification_close : Async Desk unit :=
  λ d, (Ok tt, call CNotificationClose d).

Definition matchAll (wins : Windows) : Async Desk (list WindowClient) :=
  λ d, (Ok (window_clients wins), call CMatchAll d).

Definition client_focus (wins : Windows) (client : WindowClient)
    : Async Desk WindowClient :=
  λ d, (focus wins client, call (CFocus (client_id client)) d).

Definition open_window (open : string → Result (option WindowClient))
    (target : string) : Async Desk (option WindowClient) :=
  λ d, (open target, call (COpenWindow target) d).

Definition postMessage (client : WindowClient) (message : JSObject)
    : Async Desk unit :=
  λ d, (Ok tt, call (CPostMessage (client_id client) message) d).

Definition setTimeout (t : Timer) (delay : Z) : Async Desk unit :=
  λ d, (Ok tt,
        {| timers := timers d ++ [(delay, t)];
           calls := calls d ++ [CSetTimeout delay] |}).

(** The message of lines 212-217 and 230-235; [time] is Date.now() when the
    message is built. *)
Definition clicked_message (event : NotificationEvent) (time : Z) : JSObject :=
  list_to_map
    [("type", VStr "REMINDER_NOTIFICATION_CLICKED");
     ("action", VStr (if bool_decide (action event = "") then "default"
                      else action event));
     ("data", notification_data event);
     ("timestamp", VNum time)].

(** client.url.includes(self.location.origin) && 'focus' in client *)
Definition suitable (env : Platform) (client : WindowClient) : bool :=
  includes (client_url client) (origin env) && focusable client.

Definition on_notificationclick (env : Platform) (wins : Windows)
    (event : NotificationEvent) : Async Desk unit :=
  _ <~~ say "🖱️ SW: Pi reminder notification clicked" ;;
  _ <~~ say "🎯 SW: Action:" ;;
  _ <~~ notification_close ;;
  if bool_decide (action event = "dismiss") then
    say "✕ SW: Pi reminder notification dismissed"
  else
    rescue
      (clientList <~~ matchAll wins ;;
       _ <~~ say "🔍 SW: Found" ;;
       match List.find (suitable env) clientList with
       | Some client =>
           _ <~~ say "🎯 SW: Focusing existing app window" ;;
           focused <~~ client_focus wins client ;;
           postMessage focused (clicked_message event (now env))
       | None =>
           match openWindow wins with
           | Some open =>
               _ <~~ say "🆕 SW: Opening new app window" ;;
               client <~~ open_window open "./" ;;
               setTimeout (TPostClicked client event) 1000
           | None => pure_ tt
           end
       end)
      (λ error,
         complain "❌ SW: Error handling Pi reminder notification click:").

(** A timer fires at [time]: its callback runs. *)
Definition fire (time : Z) (t : Timer) (d : Desk) : Desk :=
  match t with
  | TPostClicked (Some client) event =>
      call (CPostMessage (client_id client) (clicked_message event time)) d
  | TPostClicked None _ => d
  end.

Definition fire_all (time : Z) (d : Desk) : Desk :=
  foldl (λ d' t, fire time t.2 d') {| timers := []; calls := calls d |} (timers d).

(** A push subscription: the text JSON.stringify gives for it, and its
    options.applicationServerKey. *)
Record PushSubscription : Type := mkPushSubscription {
  subscription_json : string;
  applicationServerKey : Value
}.

(** pushManager.subscribe for a server key, and what the Pi server answers
    to the posted text. *)
Record PushService : Type := mkPushService {
  subscribe : Value → Result PushSubscription;
  pi_server : string → Result Response
}.

Definition pushManager_subscribe (svc : PushService) (userVisibleOnly : bool)
    (key : Value) : Async Desk PushSubscription :=
  λ d, (subscribe svc key, call (CSubscribe userVisibleOnly key) d).

Definition fetch_post (svc : PushService) (target contentType content : string)
    : Async Desk Response :=
  λ d, (pi_server svc content, call (CFetchPost target contentType content) d).

(** The pushsubscriptionchange listener.  event.oldSubscription may be
    null; reading its options then throws before anything is called. *)
Definition on_pushsubscriptionchange (svc : PushService)
    (oldSubscription : option PushSubscription) : Async Desk unit :=
  _ <~~ say "🔄 SW: Push subscription changed - re-subscribing..." ;;
  match oldSubscription with
  | None => throw "TypeError"
  | Some old =>
      rescue
        (response <~~
           (newSubscription <~~
              pushManager_subscribe svc true (applicationServerKey old) ;;
            _ <~~ say "✅ SW: Re-subscribed with new subscription" ;;
            fetch_post svc "https://192.168.0.147:3001/subscribe"
              "application/json" (subscription_json newSubscription)) ;;
         if response_ok response then
           say "✅ SW: New subscription sent to Pi server"
         else
           complain "❌ SW: Failed to send new subscription to Pi server")
        (λ error, complain "❌ SW: Error handling subscription change:")
  end.

(** ** Observations used in the statements *)

(** The cache stored under a name. *)
Fixpoint storage_lookup (cs : CacheStorage) (name : string) : option Cache :=
  match cs with
  | [] => None
  | (n, c) :: cs' => if decide (n = name) then Some c else storage_lookup cs' name
  end.

(** What the deletion of the stale caches among [names] prints and calls. *)
Definition deletion_effects (names : list string) : list Effect :=
  names ≫= λ n, if bool_decide (n ≠ CACHE_NAME)
                 then [ELog "🗑️ SW: Deleting old cache:"; ECachesDelete n]
                 else [].

(** The options of the showNotification calls in a trace. *)
Definition displayed (es : list Effect) : list JSObject :=
  omap (λ e, match e with EShowNotification _ o => Some o | _ => None end) es.

(** The payload's own property [k], when the payload parses. *)
Definition payload_field (data : option PushMessageData) (k : string) : option Value :=
  match data with
  | Some d => match json d with Ok v => own_props v !! k | Err _ => None end
  | None => None
  end.

(** The three tests of the message listener, and what each guards. *)
Inductive Branch : Type := SKIP_WAITING | GET_VERSION | SYNC_REMINDERS.

Definition branch_tag (b : Branch) : string :=
  match b with
  | SKIP_WAITING => "SKIP_WAITING"
  | GET_VERSION => "GET_VERSION"
  | SYNC_REMINDERS => "SYNC_REMINDERS"
  end.

Definition branch_body (ports : nat) (b : Branch) : Promise unit :=
  match b with
  | SKIP_WAITING =>
      _ <~ console_log "⏭️ SW: Skip waiting requested" ;;
      skip_waiting
  | GET_VERSION =>
      port_postMessage ports 0
        (list_to_map
           [("version", VStr CACHE_NAME); ("type", VStr "simple-reminders")])
  | SYNC_REMINDERS => console_log "🔄 SW: Sync reminders message received"
  end.

(** The branches a message enters, in source order. *)
Definition branches_taken (data : Value) : list Branch :=
  filter (λ b, type_is data (branch_tag b) = true)
    [SKIP_WAITING; GET_VERSION; SYNC_REMINDERS].

(** ** Sample inputs *)

Definition page_html : Response :=
  {| status := 200; headers := [("Content-Type", "text/html")];
     body := "<!doctype html>" |}.

Definition not_found : Response :=
  {| status := 404; headers := []; body := "Not Found" |}.

Definition desktop_online : Platform :=
  {| network := λ _, Ok page_html;
     origin := "https://reminders.example";
     now := 1700000000000;
     userAgent := "Mozilla/5.0 (X11; Linux x86_64)";
     permitted := true;
     windows := [0%nat] |}.

Definition desktop_missing : Platform :=
  {| network := λ _, Ok not_found;
     origin := "https://reminders.example";
     now := 1700000000000;
     userAgent := "Mozilla/5.0 (X11; Linux x86_64)";
     permitted := true;
     windows := [] |}.

Definition iphone_offline : Platform :=
  {| network := λ _, Err "TypeError: Failed to fetch";
     origin := "https://reminders.example";
     now := 1700000000000;
     userAgent := "Mozilla/5.0 (iPhone; CPU iPhone OS 17_0 like Mac OS X)";
     permitted := true;
     windows := [] |}.

Definition app_js : Request :=
  {| url := {| hostname := "reminders.example"; port := ""; pathname := "/app.js" |};
     method := "GET" |}.

Definition pi_api : Request :=
  {| url := {| hostname := "192.168.0.147"; port := "3001"; pathname := "/reminders" |};
     method := "GET" |}.

Definition public_lookalike : Request :=
  {| url := {| hostname := "www.192.168.example.com"; port := ""; pathname := "/" |};
     method := "GET" |}.

Definition installed : World :=
  {| caches := [(CACHE_NAME, [])]; claimed := false; pending := []; trace := [] |}.


Definition only_stale : World :=
  {| caches := [("simple-reminders-v0", [(app_js, page_html)])];
     claimed := false; pending := []; trace := [] |}.

Definition upgraded : World :=
  {| caches := [("simple-reminders-v0", [(app_js, page_html)]); (CACHE_NAME, []);
                ("other-app", [])];
     claimed := false; pending := []; trace := [] |}.

Definition pills : PushMessageData :=
  {| json := Ok (VObj (list_to_map
                         [("title", VStr "Take pills");
                          ("body", VStr "8am dose");
                          ("requireInteraction", VBool false)]));
     text := q "{'title':'Take pills','body':'8am dose','requireInteraction':false}" |}.

Definition call_mom : PushMessageData :=
  {| json := Err "SyntaxError"; text := "Call mom" |}.

Definition tagged : PushMessageData :=
  {| json := Ok (VObj (list_to_map [("tag", VStr "urgent")]));
     text := q "{'tag':'urgent'}" |}.

Definition get_version : Value :=
  VObj (list_to_map [("type", VStr "GET_VERSION")]).

Definition own_actions : PushMessageData :=
  {| json := Ok (VObj (list_to_map [("actions", VArr [])]));
     text := q "{'actions':[]}" |}.

(** ** Further observations and sample inputs *)



Definition stale_and_current : World :=
  {| caches := [("simple-reminders-v0", [(app_js, not_found)]);
                (CACHE_NAME, [(app_js, page_html)])];
     claimed := false; pending := []; trace := [] |}.

(** A sample resolution: the worker is served from the root of
    reminders.example. *)
Definition at_root (u : string) : Request :=
  {| url := {| hostname := "reminders.example"; port := "";
               pathname := match u with
                           | String "." rest => rest
                           | _ => u
                           end |};
     method := "GET" |}.

(** The messages posted to client windows in a trace. *)
Definition relayed (es : list Effect) : list (nat * JSObject) :=
  omap (λ e, match e with EClientPostMessage c m => Some (c, m) | _ => None end) es.

Definition null_payload : PushMessageData :=
  {| json := Ok VNull; text := "null" |}.

Definition own_badge : PushMessageData :=
  {| json := Ok (VObj (list_to_map [("badge", VStr "/badge.png")]));
     text := q "{'badge':'/badge.png'}" |}.

Definition desktop_refused : Platform :=
  {| network := λ _, Ok page_html;
     origin := "https://reminders.example";
     now := 1700000000000;
     userAgent := "Mozilla/5.0 (X11; Linux x86_64)";
     permitted := false;
     windows := [0%nat; 1%nat] |}.

Definition skip_waiting_message : Value :=
  VObj (list_to_map [("type", VStr "SKIP_WAITING")]).

Definition unknown_message : Value :=
  VObj (list_to_map [("type", VStr "PING"); ("payload", VNum 1)]).

(** The messages posted to clients in a trace of calls. *)
Definition posted (cs : list Call) : list (nat * JSObject) :=
  omap (λ c, match c with CPostMessage client m => Some (client, m) | _ => None end) cs.

Definition idle : Desk := {| timers := []; calls := [] |}.

Definition other_tab : WindowClient :=
  {| client_id := 3; client_url := "https://elsewhere.example/";
     focusable := true |}.

Definition app_tab : WindowClient :=
  {| client_id := 7; client_url := "https://reminders.example/index.html";
     focusable := true |}.

Definition second_app_tab : WindowClient :=
  {| client_id := 9; client_url := "https://reminders.example/"; focusable := true |}.

Definition new_tab : WindowClient :=
  {| client_id := 11; client_url := "https://reminders.example/"; focusable := true |}.

Definition app_open : Windows :=
  {| window_clients := [other_tab; app_tab; second_app_tab];
     focus := λ c, Ok c;
     openWindow := Some (λ _, Ok (Some new_tab)) |}.

Definition focus_refused : Windows :=
  {| window_clients := [app_tab];
     focus := λ _, Err "InvalidAccessError";
     openWindow := Some (λ _, Ok (Some new_tab)) |}.

Definition app_closed : Windows :=
  {| window_clients := [other_tab];
     focus := λ c, Ok c;
     openWindow := Some (λ _, Ok (Some new_tab)) |}.

Definition plain_click : NotificationEvent :=
  {| action := ""; notification_data := VObj (list_to_map [("source", VStr "pi-reminder-server")]) |}.

Definition dismiss_click : NotificationEvent :=
  {| action := "dismiss"; notification_data := VNull |}.

Definition old_subscription : PushSubscription :=
  {| subscription_json := q "{'endpoint':'https://push.example/old'}";
     applicationServerKey := VStr "BEl62iUYgUivxIkv69yViEuiBIa" |}.

Definition new_subscription : PushSubscription :=
  {| subscription_json := q "{'endpoint':'https://push.example/new'}";
     applicationServerKey := VStr "BEl62iUYgUivxIkv69yViEuiBIa" |}.

Definition no_content : Response :=
  {| status := 204; headers := []; body := "" |}.

Definition pi_accepts : PushService :=
  {| subscribe := λ _, Ok new_subscription; pi_server := λ _, Ok no_content |}.

Definition pi_rejects : PushService :=
  {| subscribe := λ _, Ok new_subscription; pi_server := λ _, Ok not_found |}.

Definition push_denied : PushService :=
  {| subscribe := λ _, Err "NotAllowedError"; pi_server := λ _, Ok no_content |}.

(** * Properties *)

(** ** Strings *)

Lemma append_nil_l (s : string) : "" +:+ s = s.
Proof. reflexivity. Qed.

Lemma append_cons (a : ascii) (s t : string) :
  String a s +:+ t = String a (s +:+ t).
Proof. reflexivity. Qed.

Lemma prefix_app (p rest : string) : String.prefix p (p +:+ rest) = true.
Proof.
  induction p as [|a p IH]; [by destruct rest|].
  rewrite append_cons. simpl. destruct (ascii_dec a a); [exact IH | done].
Qed.

Lemma prefix_true (p s : string) :
  String.prefix p s = true → ∃ rest, s = p +:+ rest.
Proof.
  revert s. induction p as [|a p IH]; intros s H.
  - by exists s.
  - destruct s as [|b s]; [done|]. simpl in H.
    destruct (ascii_dec a b) as [->|]; [|done].
    destruct (IH _ H) as [rest ->]. by exists rest.
Qed.

Lemma includes_unfold (s sub : string) :
  includes s sub =
  String.prefix sub s ||
  match s with EmptyString => false | String _ s' => includes s' sub end.
Proof. by destruct s. Qed.

Lemma includes_app (pre sub post : string) :
  includes (pre +:+ sub +:+ post) sub = true.
Proof.
  induction pre as [|a pre IH].
  - rewrite append_nil_l, includes_unfold. by rewrite prefix_app.
  - rewrite append_cons, includes_unfold, IH. apply orb_true_r.
Qed.

Lemma includes_true (s sub : string) :
  includes s sub = true → ∃ pre post, s = pre +:+ sub +:+ post.
Proof.
  induction s as [|a s IH]; rewrite includes_unfold; intros H.
  - apply orb_true_iff in H as [H|H]; [|done].
    apply prefix_true in H as [rest ->]. by exists "", rest.
  - apply orb_true_iff in H as [H|H].
    + apply prefix_true in H as [rest Hs]. exists "", rest. by rewrite append_nil_l.
    + destruct (IH H) as (pre & post & ->). by exists (String a pre), post.
Qed.

Lemma includes_iff (s sub : string) :
  includes s sub = true ↔ ∃ pre post, s = pre +:+ sub +:+ post.
Proof.
  split; [apply includes_true|]. intros (pre & post & ->). apply includes_app.
Qed.

(** ** The cache storage *)

Lemma cache_match_put_entry (c : Cache) request response :
  cache_match (cache_put_entry c request response) request = Some response.
Proof.
  unfold cache_put_entry. induction c as [|[k r] c IH]; simpl.
  - by rewrite decide_True.
  - rewrite filter_cons. simpl. destruct (decide (k ≠ request)) as [Hne|Heq]; simpl.
    + by rewrite decide_False.
    + exact IH.
Qed.

Lemma storage_lookup_put (cs : CacheStorage) name request response :
  has_cache name cs = true →
  ∃ c, storage_lookup (storage_put cs name request response) name = Some c
       ∧ cache_match c request = Some response.
Proof.
  unfold has_cache. rewrite bool_decide_eq_true.
  induction cs as [|[n c] cs IH]; simpl; intros Hin.
  - by apply elem_of_nil in Hin.
  - destruct (decide (n = name)) as [->|Hne]; simpl.
    + rewrite decide_True; [|done]. eexists. split; [done|].
      apply cache_match_put_entry.
    + rewrite decide_False; [|done]. apply IH.
      apply elem_of_cons in Hin as [Heq|Hin]; [by subst|done].
Qed.

Lemma has_cache_after_open (cs : CacheStorage) name :
  has_cache name (if has_cache name cs then cs else cs ++ [(name, [])]) = true.
Proof.
  destruct (has_cache name cs) eqn:H; [done|].
  unfold has_cache. apply bool_decide_eq_true. rewrite fmap_app. simpl.
  set_solver.
Qed.


(** ** fetch *)



Lemma is_bypass_iff (u : URL) :
  is_bypass u = true ↔
  (∃ pre post, hostname u = pre +:+ "192.168." +:+ post) ∨ port u = "3001".
Proof.
  unfold is_bypass. rewrite orb_true_iff, includes_iff, bool_decide_eq_true. done.
Qed.

Lemma on_fetch_bypass (env : Platform) (request : Request) (w : World) :
  is_bypass (url request) = true →
  on_fetch env request w
  = (NotIntercepted, emit (ELog "🔄 SW: Bypassing cache for Pi server request:") w).
Proof. intros H. unfold on_fetch. by rewrite H. Qed.

Lemma on_fetch_cacheable (env : Platform) (request : Request) (w : World) :
  is_bypass (url request) = false →
  on_fetch env request w
  = (RespondWith (cache_first env request w).1, (cache_first env request w).2).
Proof. intros H. unfold on_fetch. rewrite H. by destruct (cache_first env request w). Qed.



(** C2.  A request whose hostname includes "192.168." or whose port is
    "3001" is left to the browser: the listener returns without answering,
    so the page receives what the network returns for the request; the
    listener makes no call on the cache storage, queues nothing and leaves
    the storage as it was. *)
Theorem fetch_bypass_is_direct (env : Platform) (request : Request) (w : World) :
  includes (hostname (url request)) "192.168." = true ∨ port (url request) = "3001" →
  page_response env request w = network env request
  ∧ ∃ w', on_fetch env request w = (NotIntercepted, w')
          ∧ trace w' = trace w ++ [ELog "🔄 SW: Bypassing cache for Pi server request:"]
          ∧ caches w' = caches w
          ∧ pending w' = pending w.
Proof.
  intros H.
  assert (is_bypass (url request) = true) as Hb.
  { unfold is_bypass. apply orb_true_iff.
    destruct H as [H|H]; [by left | right; by apply bool_decide_eq_true]. }
  unfold page_response. rewrite (on_fetch_bypass _ _ _ Hb). simpl.
  split; [done|]. by eexists.
Qed.

Lemma fetch_bypass_is_direct_witness :
  (includes (hostname (url pi_api)) "192.168." = true ∨ port (url pi_api) = "3001")
  ∧ page_response iphone_offline pi_api installed = Err "TypeError: Failed to fetch"
  ∧ caches (on_fetch iphone_offline pi_api installed).2 = caches installed.
Proof.
  assert (includes (hostname (url pi_api)) "192.168." = true
          ∨ port (url pi_api) = "3001") as H by (left; reflexivity).
  split; [exact H|].
  destruct (fetch_bypass_is_direct iphone_offline pi_api installed H)
    as (Hpage & w' & Hrun & _ & Hcaches & _).
  split; [exact Hpage|]. rewrite Hrun. exact Hcaches.
Defined.

(** The promise handed to respondWith is fulfilled whatever the cache and
    the network do. *)
Lemma cache_first_never_rejects (env : Platform) (request : Request) (w : World) :
  ∃ response, (cache_first env request w).1 = Ok response.
Proof.
  unfold cache_first, catch_, then_, caches_match, fetch. simpl.
  destruct (storage_match (caches w) request); simpl; [by eexists|].
  destruct (network env request) as [r|e]; simpl; [|by eexists].
  destruct (status r =? 200); simpl; by eexists.
Qed.

(** C3.  When a request that is not bypassed misses the cache and the
    network fetch is rejected, the listener answers with a response of
    status 408, content type application/json and the JSON text of an
    object with the fields error and message; nothing is stored.  The
    promise handed to respondWith is never rejected, for any request that
    is not bypassed. *)
Theorem fetch_failure_gives_408 (env : Platform) (request : Request) (w : World)
    (e : string) :
  is_bypass (url request) = false →
  storage_match (caches w) request = None →
  network env request = Err e →
  (∃ w', on_fetch env request w = (RespondWith (Ok error_response), w')
         ∧ trace w' = trace w ++ [ECachesMatch request;
                                  ELog "🌐 SW: Fetching from network:";
                                  EFetch request;
                                  EError "❌ SW: Fetch failed:"]
         ∧ caches w' = caches w ∧ pending w' = pending w)
  ∧ page_response env request w = Ok error_response
  ∧ status error_response = 408
  ∧ headers error_response = [("Content-Type", "application/json")]
  ∧ body error_response
    = q "{'error':'Network error','message':'Please check your connection and try again'}"
  ∧ (∀ w0, ∃ response, (on_fetch env request w0).1 = RespondWith (Ok response)).
Proof.
  intros Hc Hmiss Hnet.
  assert (on_fetch env request w
          = (RespondWith (Ok error_response),
             emit (EError "❌ SW: Fetch failed:")
               (emit (EFetch request)
                  (emit (ELog "🌐 SW: Fetching from network:")
                     (emit (ECachesMatch request) w))))) as Hrun.
  { rewrite (on_fetch_cacheable _ _ _ Hc).
    unfold cache_first, catch_, then_, caches_match, fetch. simpl.
    rewrite Hmiss. simpl. by rewrite Hnet. }
  split; [|split; [|split; [|split; [|split]]]]; try reflexivity.
  - eexists. split; [exact Hrun|]. simpl. by rewrite <- !app_assoc.
  - unfold page_response. by rewrite Hrun.
  - intros w0. rewrite (on_fetch_cacheable _ _ _ Hc). simpl.
    destruct (cache_first_never_rejects env request w0) as [r ->]. by exists r.
Qed.

Lemma fetch_failure_gives_408_witness :
  is_bypass (url app_js) = false
  ∧ storage_match (caches installed) app_js = None
  ∧ network iphone_offline app_js = Err "TypeError: Failed to fetch"
  ∧ page_response iphone_offline app_js installed = Ok error_response.
Proof.
  split; [reflexivity|]. split; [reflexivity|]. split; [reflexivity|].
  exact (proj1 (proj2 (fetch_failure_gives_408 iphone_offline app_js installed
                         "TypeError: Failed to fetch" eq_refl eq_refl eq_refl))).
Defined.

(** C9.  A hostname that contains "192.168." at any position makes the
    request a bypass request, public names included: the listener returns
    without answering and makes no call on the cache storage.  The host
    test holds exactly for the hostnames that contain the text. *)
Theorem fetch_bypass_on_substring (env : Platform) (request : Request) (w : World)
    (pre post : string) :
  hostname (url request) = pre +:+ "192.168." +:+ post →
  is_bypass (url request) = true
  ∧ (∃ w', on_fetch env request w = (NotIntercepted, w')
           ∧ trace w' = trace w ++ [ELog "🔄 SW: Bypassing cache for Pi server request:"]
           ∧ caches w' = caches w
           ∧ pending w' = pending w)
  ∧ (∀ host, includes host "192.168." = true
             ↔ ∃ pre' post', host = pre' +:+ "192.168." +:+ post').
Proof.
  intros H.
  assert (is_bypass (url request) = true) as Hb.
  { apply is_bypass_iff. left. by exists pre, post. }
  split; [exact Hb|]. split.
  - rewrite (on_fetch_bypass _ _ _ Hb). by eexists.
  - intros host. apply includes_iff.
Qed.

Lemma fetch_bypass_on_substring_witness :
  hostname (url public_lookalike) = "www." +:+ "192.168." +:+ "example.com"
  ∧ is_bypass (url public_lookalike) = true
  ∧ (on_fetch desktop_online public_lookalike installed).1 = NotIntercepted.
Proof.
  split; [reflexivity|].
  destruct (fetch_bypass_on_substring desktop_online public_lookalike installed
              "www." "example.com" eq_refl) as (Hb & (w' & Hrun & _) & _).
  split; [exact Hb|]. rewrite Hrun. reflexivity.
Defined.

(** ** activate *)

Lemma filter_ext_elem {A} (P Q : A → Prop)
    `{!∀ x, Decision (P x)} `{!∀ x, Decision (Q x)} (l : list A) :
  (∀ x, x ∈ l → (P x ↔ Q x)) → filter P l = filter Q l.
Proof.
  induction l as [|x l IH]; intros Hl; [done|].
  rewrite !filter_cons.
  assert (P x ↔ Q x) as Hx by (apply Hl; left).
  rewrite IH by (intros y Hy; apply Hl; by right).
  destruct (decide (P x)), (decide (Q x)); try done; exfalso; tauto.
Qed.

Lemma delete_stale_caches (names : list string) (w : World) :
  ∃ results w',
    promise_all (map delete_if_stale names) w = (Ok results, w')
    ∧ caches w' = filter (λ nc, nc.1 = CACHE_NAME ∨ nc.1 ∉ names) (caches w)
    ∧ claimed w' = claimed w
    ∧ pending w' = pending w
    ∧ trace w' = trace w ++ deletion_effects names.
Proof.
  revert w. induction names as [|n names IH]; intros w.
  - exists [], w. simpl. split; [done|]. split.
    + induction (caches w) as [|nc cs IHcs]; [done|].
      rewrite filter_cons, decide_True by (right; apply not_elem_of_nil).
      by rewrite <- IHcs.
    + by rewrite app_nil_r.
  - simpl. unfold delete_if_stale at 1.
    destruct (bool_decide_reflect (n ≠ CACHE_NAME)) as [Hne|Heq].
    + unfold then_, console_log, caches_delete, resolve. simpl.
      match goal with |- context [promise_all _ ?w1] =>
        destruct (IH w1) as (rs & w' & Hrun & Hc & Hcl & Hp & Ht) end.
      rewrite Hrun. eexists _, w'. split; [done|].
      rewrite Hc, Hcl, Hp, Ht. simpl. unfold storage_delete.
      rewrite list_filter_filter, <- !app_assoc.
      split; [|done].
      apply list_filter_iff. intros [m c]. simpl.
      rewrite not_elem_of_cons.
      destruct (decide (m = CACHE_NAME)); intuition congruence.
    + apply dec_stable in Heq as ->. unfold resolve.
      destruct (IH w) as (rs & w' & Hrun & Hc & Hcl & Hp & Ht).
      rewrite Hrun. eexists _, w'. split; [done|].
      rewrite Hc, Hcl, Hp, Ht. simpl.
      split; [|done].
      apply list_filter_iff. intros [m c]. simpl.
      rewrite not_elem_of_cons.
      destruct (decide (m = CACHE_NAME)); intuition congruence.
Qed.

Lemma filter_names (P : string → Prop) `{!∀ n, Decision (P n)} (cs : CacheStorage) :
  (filter (λ nc, P nc.1) cs).*1 = filter P cs.*1.
Proof.
  induction cs as [|[n c] cs IH]; [done|].
  rewrite fmap_cons, !filter_cons. simpl.
  destruct (decide (P n)); [rewrite fmap_cons; simpl|]; by rewrite <- IH.
Qed.

Lemma names_of_current (cs : CacheStorage) :
  (filter (λ nc, nc.1 = CACHE_NAME) cs).*1 = filter (λ n, n = CACHE_NAME) cs.*1.
Proof. exact (filter_names (λ n, n = CACHE_NAME) cs). Qed.

Lemma filter_current_absent (names : list string) :
  CACHE_NAME ∉ names → filter (λ n, n = CACHE_NAME) names = [].
Proof.
  induction names as [|n names IH]; [done|]. rewrite not_elem_of_cons.
  intros [Hne Hnot]. rewrite filter_cons, decide_False by done. by apply IH.
Qed.

Lemma filter_current_present (names : list string) :
  NoDup names → CACHE_NAME ∈ names → filter (λ n, n = CACHE_NAME) names = [CACHE_NAME].
Proof.
  induction names as [|n names IH]; intros Hnd Hin.
  - by apply elem_of_nil in Hin.
  - apply NoDup_cons in Hnd as [Hn Hnd]. rewrite filter_cons.
    destruct (decide (n = CACHE_NAME)) as [->|Hne].
    + by rewrite filter_current_absent.
    + apply IH; [done|]. apply elem_of_cons in Hin as [?|?]; [by subst|done].
Qed.

Lemma deletion_effects_complete (names : list string) (n : string) :
  n ∈ names → n ≠ CACHE_NAME → ECachesDelete n ∈ deletion_effects names.
Proof.
  intros Hin Hne. unfold deletion_effects. apply list_elem_of_bind.
  exists n. split; [|done]. rewrite bool_decide_true by done. right. left.
Qed.

Lemma deletion_effects_no_claim (names : list string) :
  EClientsClaim ∉ deletion_effects names.
Proof.
  unfold deletion_effects. rewrite list_elem_of_bind. intros (n & Hin & _).
  destruct (bool_decide (n ≠ CACHE_NAME)).
  - apply elem_of_cons in Hin as [Hin|Hin]; [done|].
    apply elem_of_cons in Hin as [Hin|Hin]; [done|]. by apply elem_of_nil in Hin.
  - by apply elem_of_nil in Hin.
Qed.

Lemma on_activate_run (w : World) :
  ∃ w', on_activate w = (Ok tt, w')
    ∧ caches w' = filter (λ nc, nc.1 = CACHE_NAME) (caches w)
    ∧ claimed w' = true
    ∧ pending w' = pending w
    ∧ trace w' = trace w
                 ++ [ELog "✅ SW: Activating Simple Reminder Service Worker"; ECachesKeys]
                 ++ deletion_effects (caches w).*1
                 ++ [ELog "🎯 SW: Taking control of all pages"; EClientsClaim].
Proof.
  unfold on_activate, then_, console_log, caches_keys, clients_claim. simpl.
  match goal with |- context [promise_all _ ?w1] =>
    destruct (delete_stale_caches (caches w).*1 w1)
      as (rs & w' & Hrun & Hc & Hcl & Hp & Ht) end.
  rewrite Hrun. simpl. eexists. split; [done|]. simpl.
  rewrite Hc, Hp, Ht. simpl. rewrite <- !app_assoc. simpl.
  split; [|done].
  apply filter_ext_elem. intros [m c] Hin. simpl. split; [|by left].
  intros [?|Hnot]; [done|]. exfalso. apply Hnot.
  apply list_elem_of_fmap. by exists (m, c).
Qed.

(** C8, as the claim states it, fails where the current cache is not among
    the existing ones: activation then leaves no cache at all. *)
Lemma activate_may_leave_no_cache :
  length (caches (on_activate only_stale).2) ≠ 1%nat.
Proof. vm_compute. discriminate. Qed.

(** C8, amended.  Activation deletes every existing cache whose name is not
    the current one and no other, so that only the current cache remains:
    exactly one cache when the current name was among the existing ones,
    none otherwise.  The clients are claimed after the deletions, as the
    last call of the listener. *)
Theorem activate_keeps_only_current (w : World) :
  ∃ w' deletions,
    on_activate w = (Ok tt, w')
    ∧ caches w' = filter (λ nc, nc.1 = CACHE_NAME) (caches w)
    ∧ (NoDup (caches w).*1 → CACHE_NAME ∈ (caches w).*1 →
       fst <$> caches w' = [CACHE_NAME])
    ∧ (CACHE_NAME ∉ (caches w).*1 → caches w' = [])
    ∧ claimed w' = true
    ∧ trace w' = trace w
                 ++ [ELog "✅ SW: Activating Simple Reminder Service Worker"; ECachesKeys]
                 ++ deletions
                 ++ [ELog "🎯 SW: Taking control of all pages"; EClientsClaim]
    ∧ (EClientsClaim ∉ deletions)
    ∧ (∀ n, n ∈ (caches w).*1 → n ≠ CACHE_NAME → ECachesDelete n ∈ deletions)
    ∧ (ECachesDelete CACHE_NAME ∉ deletions).
Proof.
  destruct (on_activate_run w) as (w' & Hrun & Hc & Hcl & _ & Ht).
  exists w', (deletion_effects (caches w).*1).
  split; [exact Hrun|]. split; [exact Hc|].
  split; [|split; [|split; [exact Hcl|split; [exact Ht|split; [|split]]]]].
  - intros Hnd Hin. rewrite Hc, names_of_current.
    by apply filter_current_present.
  - intros Hnot. apply fmap_nil_inv with (f := fst).
    rewrite Hc, names_of_current.
    by apply filter_current_absent.
  - apply deletion_effects_no_claim.
  - intros n. apply deletion_effects_complete.
  - unfold deletion_effects. rewrite list_elem_of_bind. intros (n & Hin & _).
    destruct (bool_decide_reflect (n ≠ CACHE_NAME)) as [Hne|_].
    + apply elem_of_cons in Hin as [Hin|Hin]; [done|].
      apply elem_of_cons in Hin as [Hin|Hin]; [congruence|].
      by apply elem_of_nil in Hin.
    + by apply elem_of_nil in Hin.
Qed.

Lemma activate_keeps_only_current_witness :
  NoDup (caches upgraded).*1
  ∧ CACHE_NAME ∈ (caches upgraded).*1
  ∧ ∃ w', on_activate upgraded = (Ok tt, w') ∧ fst <$> caches w' = [CACHE_NAME].
Proof.
  assert (NoDup (caches upgraded).*1) as Hnd
    by (apply (bool_decide_unpack (NoDup (caches upgraded).*1)); vm_compute; exact I).
  assert (CACHE_NAME ∈ (caches upgraded).*1) as Hin by (right; left).
  split; [exact Hnd|]. split; [exact Hin|].
  destruct (activate_keeps_only_current upgraded)
    as (w' & ds & Hrun & _ & Hone & _).
  exists w'. split; [exact Hrun | exact (Hone Hnd Hin)].
Defined.

(** ** push *)

Lemma parse_push_data_total (nd : JSObject) (data : option PushMessageData) :
  ∃ nd', parse_push_data nd data = Ok nd'.
Proof.
  destruct data as [d|]; simpl; [|by eexists].
  destruct (json d); simpl; by eexists.
Qed.

Lemma notificationData_total (env : Platform) (data : option PushMessageData) :
  ∃ nd, notificationData env data = Ok nd.
Proof.
  unfold notificationData.
  destruct (parse_push_data_total (default_notificationData env) data) as [nd ->].
  by eexists.
Qed.

Lemma merge_pushData_pinned (nd : JSObject) (pushData : Value) :
  merge_pushData nd pushData !! "requireInteraction" = Some (VBool true)
  ∧ merge_pushData nd pushData !! "vibrate" = Some default_vibrate.
Proof.
  unfold merge_pushData. split.
  - rewrite lookup_insert_ne by done. apply lookup_insert_eq.
  - apply lookup_insert_eq.
Qed.

Lemma merge_pushData_other (nd : JSObject) (pushData : Value) (k : string) :
  k ≠ "requireInteraction" → k ≠ "vibrate" →
  merge_pushData nd pushData !! k
  = match own_props pushData !! k with
    | Some v => Some v
    | None => nd !! k
    end.
Proof.
  intros H1 H2. unfold merge_pushData, spread. simpl.
  rewrite !lookup_insert_ne by done.
  rewrite (right_id_L ∅ (∪)).
  destruct (own_props pushData !! k) as [v|] eqn:Hk.
  - by apply lookup_union_Some_l.
  - by rewrite lookup_union_r.
Qed.

Lemma platform_pass_other (env : Platform) (nd : JSObject) (k : string) :
  k ≠ "requireInteraction" → k ≠ "vibrate" → k ≠ "actions" → k ≠ "badge" →
  platform_pass env nd !! k = nd !! k.
Proof.
  intros H1 H2 H3 H4. unfold platform_pass. destruct (isIOS env).
  - rewrite !lookup_insert_ne by done. by rewrite lookup_delete_ne.
  - by rewrite lookup_insert_ne.
Qed.

Lemma platform_pass_body (env : Platform) (nd : JSObject) (b : Value) :
  platform_pass env (<["body" := b]> nd) = <["body" := b]> (platform_pass env nd).
Proof.
  unfold platform_pass. destruct (isIOS env).
  - rewrite delete_insert_ne by done.
    rewrite (insert_insert_ne _ "vibrate" "body") by done.
    rewrite (insert_insert_ne _ "requireInteraction" "body") by done.
    by rewrite (insert_insert_ne _ "badge" "body").
  - by rewrite (insert_insert_ne _ "actions" "body").
Qed.

Lemma for_each_post (clients : list nat) (message : JSObject) (w : World) :
  for_each clients (λ client, client_postMessage client message) w
  = (Ok tt,
     {| caches := caches w; claimed := claimed w; pending := pending w;
        trace := trace w ++ map (λ c, EClientPostMessage c message) clients |}).
Proof.
  revert w. induction clients as [|c clients IH]; intros w; simpl.
  - unfold resolve. rewrite app_nil_r. by destruct w.
  - unfold then_, client_postMessage. rewrite IH. simpl.
    by rewrite <- app_assoc.
Qed.

Lemma displayed_app (es1 es2 : list Effect) :
  displayed (es1 ++ es2) = displayed es1 ++ displayed es2.
Proof. apply omap_app. Qed.

Lemma displayed_posts (clients : list nat) (message : JSObject) :
  displayed (map (λ c, EClientPostMessage c message) clients) = [].
Proof. induction clients as [|c clients IH]; [done|exact IH]. Qed.

(** The listener calls showNotification once, with the descriptor computed
    by [notificationData], and its promise is fulfilled whether or not the
    platform displays. *)
Lemma on_push_displays (env : Platform) (data : option PushMessageData)
    (w : World) (nd : JSObject) :
  notificationData env data = Ok nd →
  (on_push env data w).1 = Ok tt
  ∧ ∃ es, trace (on_push env data w).2 = trace w ++ es ∧ displayed es = [nd].
Proof.
  intros H. unfold on_push, then_. simpl. rewrite H.
  unfold catch_, then_, log_when, console_log, console_error, showNotification,
    clients_matchAll, resolve.
  destruct (bool_decide (payload_parsed data = Some true)),
    (bool_decide (payload_parsed data = Some false)),
    (isIOS env), (permitted env); simpl;
    try (destruct (bool_decide (windows env = [])); simpl;
         [|rewrite for_each_post; simpl]);
    (split; [done|]); eexists;
    (split; [rewrite <- !app_assoc; reflexivity|]);
    simpl; rewrite ?displayed_app, ?displayed_posts; done.
Qed.

(** C4.  When the payload parses, the merge gives every property of the
    payload other than requireInteraction and vibrate the payload's value,
    keeps the default for the properties the payload does not have, and
    sets requireInteraction to true and vibrate to the default pattern
    whatever the payload says.  The descriptor then displayed is the
    platform pass of that merge: requireInteraction is still true, and the
    payload's values stand for all properties but requireInteraction,
    vibrate, actions and badge. *)
Theorem push_merge_prefers_payload (env : Platform) (d : PushMessageData)
    (pushData : Value) :
  json d = Ok pushData →
  ∃ merged shown,
    parse_push_data (default_notificationData env) (Some d) = Ok merged
    ∧ merged !! "requireInteraction" = Some (VBool true)
    ∧ merged !! "vibrate" = Some default_vibrate
    ∧ default_notificationData env !! "vibrate" = Some default_vibrate
    ∧ (∀ k v, own_props pushData !! k = Some v →
              k ≠ "requireInteraction" → k ≠ "vibrate" → merged !! k = Some v)
    ∧ (∀ k, own_props pushData !! k = None →
            k ≠ "requireInteraction" → k ≠ "vibrate" →
            merged !! k = default_notificationData env !! k)
    ∧ notificationData env (Some d) = Ok shown
    ∧ shown = platform_pass env merged
    ∧ shown !! "requireInteraction" = Some (VBool true)
    ∧ (∀ k v, own_props pushData !! k = Some v →
              k ≠ "requireInteraction" → k ≠ "vibrate" →
              k ≠ "actions" → k ≠ "badge" → shown !! k = Some v).
Proof.
  intros Hjson.
  exists (merge_pushData (default_notificationData env) pushData),
    (platform_pass env (merge_pushData (default_notificationData env) pushData)).
  assert (parse_push_data (default_notificationData env) (Some d)
          = Ok (merge_pushData (default_notificationData env) pushData)) as Hparse.
  { simpl. by rewrite Hjson. }
  destruct (merge_pushData_pinned (default_notificationData env) pushData)
    as [Hri Hvib].
  split; [exact Hparse|]. split; [exact Hri|]. split; [exact Hvib|].
  split; [reflexivity|]. split; [|split; [|split; [|split; [|split]]]].
  - intros k v Hk H1 H2. by rewrite merge_pushData_other, Hk.
  - intros k Hk H1 H2. by rewrite merge_pushData_other, Hk.
  - unfold notificationData. by rewrite Hparse.
  - reflexivity.
  - unfold platform_pass. destruct (isIOS env).
    + rewrite lookup_insert_ne by done. apply lookup_insert_eq.
    + by rewrite lookup_insert_ne.
  - intros k v Hk H1 H2 H3 H4.
    by rewrite platform_pass_other, merge_pushData_other, Hk.
Qed.

Lemma push_merge_prefers_payload_witness :
  json pills = Ok (VObj (list_to_map
                           [("title", VStr "Take pills");
                            ("body", VStr "8am dose");
                            ("requireInteraction", VBool false)]))
  ∧ ∃ shown, notificationData desktop_online (Some pills) = Ok shown
             ∧ shown !! "title" = Some (VStr "Take pills")
             ∧ shown !! "body" = Some (VStr "8am dose")
             ∧ shown !! "requireInteraction" = Some (VBool true).
Proof.
  split; [reflexivity|].
  destruct (push_merge_prefers_payload desktop_online pills _ eq_refl)
    as (merged & shown & _ & _ & _ & _ & _ & _ & Hshown & _ & Hri & Hkeep).
  exists shown. split; [exact Hshown|]. split; [|split; [|exact Hri]].
  - apply Hkeep; [reflexivity|discriminate..].
  - apply Hkeep; [reflexivity|discriminate..].
Defined.

(** C5, as the claim states it, fails for a payload that carries a tag of
    its own: the descriptor displayed has the payload's tag. *)
Lemma push_tag_follows_payload :
  ∃ es nd,
    trace (on_push desktop_online (Some tagged) installed).2 = trace installed ++ es
    ∧ displayed es = [nd]
    ∧ nd !! "tag" = Some (VStr "urgent")
    ∧ nd !! "tag" ≠ Some (VStr "reminder-notification").
Proof.
  destruct (notificationData_total desktop_online (Some tagged)) as [nd Hnd].
  destruct (on_push_displays desktop_online (Some tagged) installed nd Hnd)
    as (_ & es & Ht & Hd).
  exists es, nd. split; [exact Ht|]. split; [exact Hd|].
  assert (nd !! "tag" = Some (VStr "urgent")) as Htag.
  { vm_compute in Hnd. injection Hnd as <-. reflexivity. }
  split; [exact Htag|]. rewrite Htag. discriminate.
Qed.

(** C5, amended.  The descriptor handed to showNotification has the tag
    "reminder-notification" unless the payload parses and has a tag
    property of its own, in which case it has the payload's tag. *)
Theorem push_tag_default_unless_payload (env : Platform)
    (data : option PushMessageData) (w : World) :
  ∃ es nd,
    trace (on_push env data w).2 = trace w ++ es
    ∧ displayed es = [nd]
    ∧ notificationData env data = Ok nd
    ∧ (payload_field data "tag" = None →
       nd !! "tag" = Some (VStr "reminder-notification"))
    ∧ (∀ t, payload_field data "tag" = Some t → nd !! "tag" = Some t).
Proof.
  destruct (notificationData_total env data) as [nd Hnd].
  destruct (on_push_displays env data w nd Hnd) as (_ & es & Ht & Hd).
  exists es, nd. split; [exact Ht|]. split; [exact Hd|]. split; [exact Hnd|].
  unfold notificationData in Hnd.
  destruct data as [d|]; simpl in *.
  - destruct (json d) as [pushData|e]; simpl in *; injection Hnd as <-.
    + rewrite platform_pass_other, merge_pushData_other by done.
      split; [by intros ->|]. by intros t ->.
    + rewrite platform_pass_other by done. rewrite lookup_insert_ne by done.
      split; [done|]. intros t Ht'. discriminate.
  - injection Hnd as <-. rewrite platform_pass_other by done.
    split; [done|]. intros t Ht'. discriminate.
Qed.

Lemma push_tag_default_unless_payload_witness :
  payload_field (Some call_mom) "tag" = None
  ∧ ∃ nd, notificationData iphone_offline (Some call_mom) = Ok nd
          ∧ nd !! "tag" = Some (VStr "reminder-notification").
Proof.
  split; [reflexivity|].
  destruct (push_tag_default_unless_payload iphone_offline (Some call_mom) installed)
    as (es & nd & _ & _ & Hnd & Hdefault & _).
  exists nd. split; [exact Hnd | exact (Hdefault eq_refl)].
Defined.

(** C6, as the claim states it, fails in its last part: on a platform that
    is not iOS the action buttons are set even when the merged descriptor
    already has actions, which are replaced. *)
Lemma push_actions_replaced_when_present :
  isIOS desktop_online = false
  ∧ ∃ merged shown,
      parse_push_data (default_notificationData desktop_online) (Some own_actions)
      = Ok merged
      ∧ merged !! "actions" = Some (VArr [])
      ∧ notificationData desktop_online (Some own_actions) = Ok shown
      ∧ shown !! "actions" ≠ merged !! "actions".
Proof.
  split; [reflexivity|].
  eexists _, _. split; [reflexivity|]. split; [reflexivity|].
  split; [reflexivity|]. unfold platform_pass.
  replace (isIOS desktop_online) with false by reflexivity.
  rewrite lookup_insert_eq.
  replace (merge_pushData (default_notificationData desktop_online)
             (VObj (list_to_map [("actions", VArr [])])) !! "actions")
    with (Some (VArr [])) by reflexivity.
  discriminate.
Qed.

(** C6, amended.  After the merge the platform pass yields: on iOS a
    descriptor without actions whose vibrate has three elements; elsewhere
    a descriptor whose actions are the two fixed buttons, open and dismiss,
    with their fixed titles and icons, whether or not the merged descriptor
    had actions. *)
Theorem push_platform_pass (env : Platform) (data : option PushMessageData) :
  ∃ nd,
    notificationData env data = Ok nd
    ∧ (isIOS env = true →
       nd !! "actions" = None
       ∧ nd !! "vibrate" = Some (VArr [VNum 200; VNum 100; VNum 200])
       ∧ length [VNum 200; VNum 100; VNum 200] = 3%nat)
    ∧ (isIOS env = false →
       nd !! "actions" = Some action_buttons
       ∧ ∃ open dismiss,
           action_buttons = VArr [open; dismiss]
           ∧ get_prop open "action" = VStr "open"
           ∧ get_prop open "title" = VStr "📱 Open App"
           ∧ get_prop open "icon" = VStr open_icon
           ∧ get_prop dismiss "action" = VStr "dismiss"
           ∧ get_prop dismiss "title" = VStr "✕ Dismiss"
           ∧ get_prop dismiss "icon" = VStr dismiss_icon).
Proof.
  unfold notificationData.
  destruct (parse_push_data_total (default_notificationData env) data) as [nd ->].
  eexists. split; [reflexivity|]. unfold platform_pass. split; intros ->.
  - rewrite !lookup_insert_ne by done. rewrite lookup_delete_eq.
    split; [done|]. split; [|reflexivity]. apply lookup_insert_eq.
  - rewrite lookup_insert_eq. split; [done|].
    eexists _, _. split; [reflexivity|]. by vm_compute.
Qed.

Lemma push_platform_pass_witness :
  isIOS iphone_offline = true
  ∧ isIOS desktop_online = false
  ∧ (∃ nd, notificationData iphone_offline (Some own_actions) = Ok nd
           ∧ nd !! "actions" = None)
  ∧ (∃ nd, notificationData desktop_online (Some own_actions) = Ok nd
           ∧ nd !! "actions" = Some action_buttons).
Proof.
  split; [reflexivity|]. split; [reflexivity|]. split.
  - destruct (push_platform_pass iphone_offline (Some own_actions))
      as (nd & Hnd & Hios & _).
    exists nd. split; [exact Hnd | exact (proj1 (Hios eq_refl))].
  - destruct (push_platform_pass desktop_online (Some own_actions))
      as (nd & Hnd & _ & Hfull).
    exists nd. split; [exact Hnd | exact (proj1 (Hfull eq_refl))].
Defined.

(** C7.  When the payload does not parse, the exception is caught: the
    merge step yields the default descriptor with body set to the payload's
    text, every other property being the default's.  The descriptor then
    displayed is the one displayed for a push without payload, with that
    body; and the listener's promise is fulfilled. *)
Theorem push_unparsable_payload_is_body (env : Platform) (d : PushMessageData)
    (e : string) :
  json d = Err e →
  ∃ merged shown plain,
    parse_push_data (default_notificationData env) (Some d) = Ok merged
    ∧ merged !! "body" = Some (VStr (text d))
    ∧ (∀ k, k ≠ "body" → merged !! k = default_notificationData env !! k)
    ∧ notificationData env (Some d) = Ok shown
    ∧ notificationData env None = Ok plain
    ∧ shown = <["body" := VStr (text d)]> plain
    ∧ (∀ w, (on_push env (Some d) w).1 = Ok tt).
Proof.
  intros Hjson.
  exists (<["body" := VStr (text d)]> (default_notificationData env)),
    (platform_pass env (<["body" := VStr (text d)]> (default_notificationData env))),
    (platform_pass env (default_notificationData env)).
  assert (parse_push_data (default_notificationData env) (Some d)
          = Ok (<["body" := VStr (text d)]> (default_notificationData env)))
    as Hparse.
  { simpl. by rewrite Hjson. }
  assert (notificationData env (Some d)
          = Ok (platform_pass env
                  (<["body" := VStr (text d)]> (default_notificationData env))))
    as Hshown.
  { unfold notificationData. by rewrite Hparse. }
  split; [exact Hparse|]. split; [apply lookup_insert_eq|].
  split; [intros k Hk; by rewrite lookup_insert_ne|].
  split; [exact Hshown|]. split; [reflexivity|].
  split; [apply platform_pass_body|].
  intros w. exact (proj1 (on_push_displays env (Some d) w _ Hshown)).
Qed.

Lemma push_unparsable_payload_is_body_witness :
  json call_mom = Err "SyntaxError"
  ∧ ∃ shown plain,
      notificationData desktop_online (Some call_mom) = Ok shown
      ∧ notificationData desktop_online None = Ok plain
      ∧ shown = <["body" := VStr "Call mom"]> plain.
Proof.
  split; [reflexivity|].
  destruct (push_unparsable_payload_is_body desktop_online call_mom "SyntaxError" eq_refl)
    as (merged & shown & plain & _ & _ & _ & Hshown & Hplain & Heq & _).
  exists shown, plain. split; [exact Hshown|]. split; [exact Hplain | exact Heq].
Defined.

(** ** message *)

Lemma type_is_tag (data : Value) (tag : string) :
  type_is data tag = true → get_prop data "type" = VStr tag.
Proof.
  unfold type_is. intros [_ H]%andb_true_iff.
  destruct (get_prop data "type"); [done..| |done|done].
  simpl in H. apply bool_decide_eq_true in H. by subst.
Qed.

Lemma branch_tag_inj (b1 b2 : Branch) : branch_tag b1 = branch_tag b2 → b1 = b2.
Proof. destruct b1, b2; simpl; intros H; done. Qed.

Lemma tests_exclusive (data : Value) (b1 b2 : Branch) :
  type_is data (branch_tag b1) = true → type_is data (branch_tag b2) = true →
  b1 = b2.
Proof.
  intros H1%type_is_tag H2%type_is_tag. apply branch_tag_inj. congruence.
Qed.

(** C10.  The three tests of the message listener compare the one type
    property of the message with three different constants, so at most one
    of them holds; the listener does what the branch of that test does, or
    nothing beyond its first console line when none holds. *)
Theorem message_at_most_one_branch (data : Value) (ports : nat) (w : World) :
  (∀ b1 b2, type_is data (branch_tag b1) = true →
            type_is data (branch_tag b2) = true → b1 = b2)
  ∧ (∀ b, b ∈ branches_taken data ↔ type_is data (branch_tag b) = true)
  ∧ (length (branches_taken data) ≤ 1)%nat
  ∧ on_message data ports w
    = (_ <~ console_log "📨 SW: Received message from app:" ;;
       for_each (branches_taken data) (branch_body ports)) w.
Proof.
  split; [apply tests_exclusive|]. split; [|split].
  - intros b. unfold branches_taken. rewrite list_elem_of_filter.
    split; [by intros [? _]|]. intros H. split; [done|].
    destruct b; [left | right; left | right; right; left].
  - pose proof (tests_exclusive data) as Hex. unfold branches_taken.
    rewrite !filter_cons, filter_nil.
    destruct (decide (type_is data (branch_tag SKIP_WAITING) = true)) as [H1|H1];
      destruct (decide (type_is data (branch_tag GET_VERSION) = true)) as [H2|H2];
      destruct (decide (type_is data (branch_tag SYNC_REMINDERS) = true)) as [H3|H3];
      simpl; try lia.
    + discriminate (Hex _ _ H1 H2).
    + discriminate (Hex _ _ H1 H2).
    + discriminate (Hex _ _ H1 H3).
    + discriminate (Hex _ _ H2 H3).
  - unfold on_message, branches_taken.
    rewrite !filter_cons, filter_nil. simpl.
    destruct (decide (type_is data "SKIP_WAITING" = true)) as [H1|H1%not_true_is_false];
      destruct (decide (type_is data "GET_VERSION" = true)) as [H2|H2%not_true_is_false];
      destruct (decide (type_is data "SYNC_REMINDERS" = true)) as [H3|H3%not_true_is_false];
      rewrite H1, H2, H3; simpl;
      unfold then_, console_log, skip_waiting, port_postMessage, resolve; simpl;
      destruct (0 <? ports)%nat; reflexivity.
Qed.

Lemma message_at_most_one_branch_witness :
  type_is get_version (branch_tag GET_VERSION) = true
  ∧ branches_taken get_version = [GET_VERSION]
  ∧ ∀ b, type_is get_version (branch_tag b) = true → b = GET_VERSION.
Proof.
  split; [reflexivity|]. split; [reflexivity|].
  intros b Hb.
  exact (proj1 (message_at_most_one_branch get_version 1 installed)
           b GET_VERSION Hb eq_refl).
Defined.

(** * Further properties *)

(** ** fetch, beyond the claims *)











(** ** activate, beyond the claims *)

Lemma storage_lookup_filter_current (cs : CacheStorage) :
  storage_lookup (filter (λ nc, nc.1 = CACHE_NAME) cs) CACHE_NAME
  = storage_lookup cs CACHE_NAME.
Proof.
  induction cs as [|[n c] cs IH]; [done|].
  rewrite filter_cons. simpl. destruct (decide (n = CACHE_NAME)) as [->|Hne]; simpl.
  - by destruct (decide (CACHE_NAME = CACHE_NAME)).
  - exact IH.
Qed.

Lemma filter_current_none (cs : CacheStorage) :
  CACHE_NAME ∉ cs.*1 → filter (λ nc, nc.1 = CACHE_NAME) cs = [].
Proof.
  intros Hnot. apply fmap_nil_inv with (f := fst).
  rewrite names_of_current. by apply filter_current_absent.
Qed.

Lemma storage_lookup_absent (cs : CacheStorage) (name : string) :
  name ∉ cs.*1 → storage_lookup cs name = None.
Proof.
  induction cs as [|[n c] cs IH]; [done|]. rewrite fmap_cons, not_elem_of_cons.
  simpl. intros [Hne Hnot]. rewrite decide_False by done. by apply IH.
Qed.

Lemma storage_match_filter_current (cs : CacheStorage) (request : Request) :
  NoDup cs.*1 →
  storage_match (filter (λ nc, nc.1 = CACHE_NAME) cs) request
  = match storage_lookup cs CACHE_NAME with
    | Some c => cache_match c request
    | None => None
    end.
Proof.
  induction cs as [|[n c] cs IH]; [done|].
  rewrite fmap_cons, NoDup_cons. simpl. intros [Hn Hnd].
  rewrite filter_cons. simpl. destruct (decide (n = CACHE_NAME)) as [->|Hne].
  - rewrite filter_current_none by done. simpl.
    by destruct (cache_match c request).
  - by apply IH.
Qed.

(** X3.  Activation leaves the current cache as it is, and afterwards a
    lookup is answered by the current cache alone: an entry that only a
    stale cache holds no longer answers, and a stale entry no longer hides
    the current one.  (The cache names are distinct.) *)
Theorem activate_answers_from_current_only (w : World) (request : Request) :
  NoDup (caches w).*1 →
  storage_lookup (caches (on_activate w).2) CACHE_NAME
  = storage_lookup (caches w) CACHE_NAME
  ∧ storage_match (caches (on_activate w).2) request
    = match storage_lookup (caches w) CACHE_NAME with
      | Some c => cache_match c request
      | None => None
      end
  ∧ pending (on_activate w).2 = pending w.
Proof.
  intros Hnd. destruct (on_activate_run w) as (w' & -> & Hc & _ & Hp & _). simpl.
  rewrite Hc. split; [apply storage_lookup_filter_current|].
  split; [by apply storage_match_filter_current | exact Hp].
Qed.

Lemma activate_answers_from_current_only_witness :
  NoDup (caches stale_and_current).*1
  ∧ storage_match (caches stale_and_current) app_js = Some not_found
  ∧ storage_match (caches (on_activate stale_and_current).2) app_js = Some page_html.
Proof.
  assert (NoDup (caches stale_and_current).*1) as Hnd
    by (apply (bool_decide_unpack (NoDup (caches stale_and_current).*1));
        vm_compute; exact I).
  split; [exact Hnd|]. split; [reflexivity|].
  destruct (activate_answers_from_current_only stale_and_current app_js Hnd)
    as (_ & Hmatch & _).
  rewrite Hmatch. reflexivity.
Defined.

Lemma deletion_effects_current (names : list string) :
  (∀ n, n ∈ names → n = CACHE_NAME) → deletion_effects names = [].
Proof.
  induction names as [|n names IH]; intros Hall; [done|].
  unfold deletion_effects. rewrite bind_cons.
  rewrite bool_decide_false by (intros Hne; apply Hne, Hall; left).
  apply IH. intros m Hm. apply Hall. by right.
Qed.

Lemma filter_current_idemp (cs : CacheStorage) :
  filter (λ nc, nc.1 = CACHE_NAME) (filter (λ nc, nc.1 = CACHE_NAME) cs)
  = filter (λ nc, nc.1 = CACHE_NAME) cs.
Proof.
  induction cs as [|[n c] cs IH]; [done|].
  rewrite filter_cons. simpl. destruct (decide (n = CACHE_NAME)) as [->|Hne]; [|done].
  rewrite filter_cons. simpl.
  destruct (decide (CACHE_NAME = CACHE_NAME)); [by rewrite IH|done].
Qed.

(** X4.  Activating again changes nothing: the second activation finds no
    stale cache, deletes nothing and leaves the storage as the first
    activation left it. *)
Theorem activate_twice_deletes_nothing (w : World) :
  ∃ w1 w2,
    on_activate w = (Ok tt, w1)
    ∧ on_activate w1 = (Ok tt, w2)
    ∧ caches w2 = caches w1
    ∧ trace w2 = trace w1
                 ++ [ELog "✅ SW: Activating Simple Reminder Service Worker";
                     ECachesKeys;
                     ELog "🎯 SW: Taking control of all pages";
                     EClientsClaim].
Proof.
  destruct (on_activate_run w) as (w1 & Hrun1 & Hc1 & _).
  destruct (on_activate_run w1) as (w2 & Hrun2 & Hc2 & _ & _ & Ht2).
  exists w1, w2. split; [exact Hrun1|]. split; [exact Hrun2|]. split.
  - rewrite Hc2, Hc1. apply filter_current_idemp.
  - rewrite Ht2, deletion_effects_current; [done|].
    intros n Hn. rewrite Hc1, names_of_current in Hn.
    by apply list_elem_of_filter in Hn as [Hn _].
Qed.

(** ** install *)

Lemma fetch_all_run (env : Platform) (locate : string → Request)
    (urls : list string) (w : World) :
  ∃ res w',
    promise_all (map (λ u, fetch env (locate u)) urls) w = (res, w')
    ∧ caches w' = caches w ∧ claimed w' = claimed w ∧ pending w' = pending w
    ∧ trace w' = trace w ++ map (λ u, EFetch (locate u)) urls
    ∧ (∀ rs, res = Ok rs ↔ map (λ u, network env (locate u)) urls = map Ok rs).
Proof.
  revert w. induction urls as [|u urls IH]; intros w.
  - exists (Ok []), w. simpl. rewrite app_nil_r.
    repeat (split; [done|]). intros rs. split.
    + by intros [= <-].
    + destruct rs; [done|discriminate].
  - destruct (IH (emit (EFetch (locate u)) w))
      as (res & w' & Hrun & Hc & Hcl & Hp & Ht & Hres).
    change (promise_all (map (λ u, fetch env (locate u)) (u :: urls)) w)
      with (let '(rs, w2) :=
              promise_all (map (λ u, fetch env (locate u)) urls)
                (emit (EFetch (locate u)) w) in
            (match network env (locate u), rs with
             | Ok a, Ok l => Ok (a :: l)
             | Err e, _ => Err e
             | Ok _, Err e => Err e
             end, w2)).
    rewrite Hrun. eexists _, w'. split; [done|]. rewrite Hc, Hcl, Hp, Ht. simpl.
    rewrite <- app_assoc. repeat (split; [done|]). intros rs.
    destruct (network env (locate u)) as [r|e], res as [l|e'].
    + split.
      * intros [= <-]. simpl. f_equal. by apply Hres.
      * destruct rs as [|r' rs]; [discriminate|]. simpl. intros [= -> Hrest].
        apply Hres in Hrest. by injection Hrest as ->.
    + split; [discriminate|]. destruct rs as [|r' rs]; [discriminate|].
      simpl. intros [= _ Hrest]. by apply Hres in Hrest.
    + split; [discriminate|]. destruct rs; discriminate.
    + split; [discriminate|]. destruct rs; discriminate.
Qed.

Lemma put_all_run (cache : string) (entries : list (Request * Response)) (w : World) :
  ∃ w',
    for_each entries (λ entry, cache_put cache entry.1 entry.2) w = (Ok tt, w')
    ∧ caches w' = foldl (λ cs entry, storage_put cs cache entry.1 entry.2)
                    (caches w) entries
    ∧ claimed w' = claimed w ∧ pending w' = pending w
    ∧ trace w' = trace w ++ map (λ entry, ECachePut cache entry.1 entry.2) entries.
Proof.
  revert w. induction entries as [|e entries IH]; intros w; simpl.
  - exists w. by rewrite app_nil_r.
  - unfold then_, cache_put at 1.
    match goal with |- context [for_each entries _ ?w1] =>
      destruct (IH w1) as (w' & -> & Hc & Hcl & Hp & Ht) end.
    exists w'. rewrite Hc, Hcl, Hp, Ht. simpl. by rewrite <- app_assoc.
Qed.

Lemma storage_put_names (cs : CacheStorage) name request response :
  (storage_put cs name request response).*1 = cs.*1.
Proof.
  induction cs as [|[n c] cs IH]; [done|]. simpl.
  destruct (decide (n = name)); [done|]. rewrite !fmap_cons. by rewrite IH.
Qed.

Lemma put_all_names (cs : CacheStorage) name (entries : list (Request * Response)) :
  (foldl (λ cs' entry, storage_put cs' name entry.1 entry.2) cs entries).*1 = cs.*1.
Proof.
  revert cs. induction entries as [|e entries IH]; intros cs; [done|].
  simpl. by rewrite IH, storage_put_names.
Qed.

Lemma cache_match_put_other (c : Cache) (k request : Request) (response : Response) :
  k ≠ request →
  cache_match (cache_put_entry c k response) request = cache_match c request.
Proof.
  intros Hne. unfold cache_put_entry. induction c as [|[k0 r0] c IH]; simpl.
  - by rewrite decide_False.
  - rewrite filter_cons. simpl. destruct (decide (k0 ≠ k)) as [Hk|Hk]; simpl.
    + destruct (decide (k0 = request)); [done|exact IH].
    + apply dec_stable in Hk as ->. by rewrite decide_False.
Qed.

Lemma storage_lookup_put_other (cs : CacheStorage) name c (k request : Request)
    (response : Response) :
  storage_lookup cs name = Some c → k ≠ request →
  ∃ c', storage_lookup (storage_put cs name k response) name = Some c'
        ∧ cache_match c' request = cache_match c request.
Proof.
  intros Hlook Hne. induction cs as [|[n c0] cs IH]; [done|]. simpl in *.
  destruct (decide (n = name)) as [->|Hn]; simpl.
  - injection Hlook as ->. rewrite decide_True by done.
    eexists. split; [done|]. by apply cache_match_put_other.
  - rewrite decide_False by done. by apply IH.
Qed.

Lemma storage_lookup_present (cs : CacheStorage) (name : string) :
  has_cache name cs = true → ∃ c, storage_lookup cs name = Some c.
Proof.
  unfold has_cache. rewrite bool_decide_eq_true.
  induction cs as [|[n c] cs IH]; simpl; intros Hin.
  - by apply elem_of_nil in Hin.
  - destruct (decide (n = name)); [by eexists|]. apply IH.
    apply elem_of_cons in Hin as [?|?]; [by subst|done].
Qed.

(** After a run of puts of what the network answered, the named cache
    answers each request that was put with the network's response. *)
Lemma put_all_lookup (env : Platform) (cs : CacheStorage) (name : string)
    (entries : list (Request * Response)) (request : Request) (response : Response) :
  has_cache name cs = true →
  (∀ entry, entry ∈ entries → network env entry.1 = Ok entry.2) →
  (request, response) ∈ entries →
  ∃ c, storage_lookup
         (foldl (λ cs' entry, storage_put cs' name entry.1 entry.2) cs entries) name
       = Some c
       ∧ cache_match c request = Some response.
Proof.
  intros Hhas. induction entries as [|e entries IH] using rev_ind; intros Hnet Hin.
  - by apply elem_of_nil in Hin.
  - rewrite foldl_app. simpl.
    assert (has_cache name
              (foldl (λ cs' entry, storage_put cs' name entry.1 entry.2) cs entries)
            = true) as Hhas'.
    { unfold has_cache in *. by rewrite put_all_names. }
    destruct (decide (e.1 = request)) as [Heq|Hne].
    + assert (e.2 = response) as <-.
      { assert (network env e.1 = Ok e.2) as H1
          by (apply Hnet, elem_of_app; right; left).
        assert (network env request = Ok response) as H2
          by (apply (Hnet (request, response)), Hin).
        rewrite Heq in H1. congruence. }
      rewrite Heq. by apply storage_lookup_put.
    + apply elem_of_app in Hin as [Hin|Hin].
      * destruct IH as (c & Hlook & Hmatch);
          [intros e' He'; apply Hnet, elem_of_app; by left | done |].
        destruct (storage_lookup_put_other _ _ _ e.1 request e.2 Hlook Hne)
          as (c' & Hlook' & Hmatch').
        exists c'. split; [done|]. by rewrite Hmatch'.
      * apply elem_of_cons in Hin as [Heq|Hin]; [by subst e|].
        by apply elem_of_nil in Hin.
Qed.

Lemma responses_of_urls {A} (f : string → Result A) (urls : list string) (rs : list A) :
  map f urls = map Ok rs →
  length rs = length urls
  ∧ ∀ u, u ∈ urls → ∃ r, f u = Ok r ∧ r ∈ rs.
Proof.
  revert rs. induction urls as [|u urls IH]; intros [|r rs]; simpl; try discriminate.
  - intros _. split; [done|]. intros u Hu. by apply elem_of_nil in Hu.
  - intros [= Hu Hrest]. destruct (IH _ Hrest) as [Hlen Hall]. split; [by rewrite Hlen|].
    intros u' [->|Hu']%elem_of_cons.
    + exists r. split; [done|left].
    + destruct (Hall _ Hu') as (r' & ? & ?). exists r'. split; [done|by right].
Qed.

Lemma on_install_run (env : Platform) (locate : string → Request) (w : World) :
  ∃ res w' stores,
    on_install env locate w = (res, w')
    ∧ claimed w' = claimed w ∧ pending w' = pending w
    ∧ trace w' = trace w
                 ++ [ELog "🔧 SW: Installing Simple Reminder Service Worker...";
                     ECachesOpen CACHE_NAME; ESkipWaiting;
                     ELog "📦 SW: Caching app files"]
                 ++ map (λ u, EFetch (locate u)) urlsToCache ++ stores
    ∧ ((∃ rs, map (λ u, network env (locate u)) urlsToCache = map Ok rs
              ∧ forallb response_ok rs = true
              ∧ res = Ok tt
              ∧ caches w'
                = foldl (λ cs entry, storage_put cs CACHE_NAME entry.1 entry.2)
                    (if has_cache CACHE_NAME (caches w) then caches w
                     else caches w ++ [(CACHE_NAME, [])])
                    (zip (map locate urlsToCache) rs)
              ∧ stores = map (λ entry, ECachePut CACHE_NAME entry.1 entry.2)
                           (zip (map locate urlsToCache) rs))
       ∨ ((∀ rs, map (λ u, network env (locate u)) urlsToCache = map Ok rs →
                 forallb response_ok rs = false)
          ∧ (∃ e, res = Err e)
          ∧ caches w' = (if has_cache CACHE_NAME (caches w) then caches w
                         else caches w ++ [(CACHE_NAME, [])])
          ∧ stores = [])).
Proof.
  unfold on_install, then_ at 1 2 3 4, console_log, caches_open, skip_waiting,
    cache_addAll, then_.
  cbn [fst snd].
  match goal with |- context [promise_all _ ?w1] =>
    destruct (fetch_all_run env locate urlsToCache w1)
      as (res & w1' & Hrun & Hc & Hcl & Hp & Ht & Hres) end.
  rewrite Hrun. destruct res as [rs|e].
  - destruct (forallb response_ok rs) eqn:Hok.
    + destruct (put_all_run CACHE_NAME (zip (map locate urlsToCache) rs) w1')
        as (w2 & Hput & Hc2 & Hcl2 & Hp2 & Ht2).
      rewrite Hput. eexists _, w2, _. split; [done|].
      rewrite Hcl2, Hp2, Ht2, Hcl, Hp, Ht, Hc2, Hc.
      split; [done|]. split; [done|]. split.
      * cbn [trace emit with_caches]. by rewrite <- !app_assoc.
      * left. exists rs. split; [by apply Hres|]. done.
    + unfold reject. eexists _, w1', []. split; [done|].
      rewrite Hcl, Hp, Ht, Hc. split; [done|]. split; [done|]. split.
      * cbn [trace emit with_caches]. rewrite <- !app_assoc. by rewrite app_nil_r.
      * right. split; [|split; [by eexists|done]].
        intros rs' Hrs'. apply Hres in Hrs'. by injection Hrs' as <-.
  - eexists _, w1', []. split; [done|].
    rewrite Hcl, Hp, Ht, Hc. split; [done|]. split; [done|]. split.
    + cbn [trace emit with_caches]. rewrite <- !app_assoc. by rewrite app_nil_r.
    + right. split; [|split; [by eexists|done]].
      intros rs' Hrs'. apply Hres in Hrs'. discriminate.
Qed.

Lemma storage_match_after_open (cs : CacheStorage) (name : string) (request : Request) :
  storage_match (if has_cache name cs then cs else cs ++ [(name, [])]) request
  = storage_match cs request.
Proof.
  destruct (has_cache name cs); [done|].
  induction cs as [|[n c] cs IH]; [done|]. simpl.
  destruct (cache_match c request); [done|exact IH].
Qed.

Lemma forallb_false_elem {A} (f : A → bool) (l : list A) (x : A) :
  x ∈ l → f x = false → forallb f l = false.
Proof.
  induction l as [|y l IH]; intros Hin Hx; [by apply elem_of_nil in Hin|].
  simpl. apply elem_of_cons in Hin as [<-|Hin]; [by rewrite Hx|].
  rewrite IH by done. apply andb_false_r.
Qed.

Lemma responses_exist {A} (f : string → Result A) (P : A → bool) (urls : list string) :
  (∀ u, u ∈ urls → ∃ r, f u = Ok r ∧ P r = true) →
  ∃ rs, map f urls = map Ok rs ∧ forallb P rs = true.
Proof.
  induction urls as [|u urls IH]; intros Hall.
  - by exists [].
  - destruct (Hall u) as (r & Hr & HP); [left|].
    destruct IH as (rs & Hrs & Hok); [intros u' Hu'; apply Hall; by right|].
    exists (r :: rs). simpl. by rewrite Hr, Hrs, HP, Hok.
Qed.

Lemma zip_urls_responses (env : Platform) (locate : string → Request)
    (urls : list string) (rs : list Response) :
  map (λ u, network env (locate u)) urls = map Ok rs →
  (∀ entry, entry ∈ zip (map locate urls) rs → network env entry.1 = Ok entry.2)
  ∧ (∀ u r, u ∈ urls → network env (locate u) = Ok r →
            (locate u, r) ∈ zip (map locate urls) rs).
Proof.
  revert rs. induction urls as [|u urls IH]; intros [|r rs]; simpl; try discriminate.
  - intros _. split; [intros e He; by apply elem_of_nil in He|].
    intros u r Hu. by apply elem_of_nil in Hu.
  - intros [= Hu Hrest]. destruct (IH _ Hrest) as [Hnet Hin]. split.
    + intros e [->|He]%elem_of_cons; [done|by apply Hnet].
    + intros u' r' [->|Hu']%elem_of_cons Hr'.
      * rewrite Hu in Hr'. injection Hr' as <-. left.
      * right. by apply Hin.
Qed.

Lemma on_install_names (env : Platform) (locate : string → Request) (w : World) :
  (caches (on_install env locate w).2).*1
  = (caches w).*1 ++ (if has_cache CACHE_NAME (caches w) then [] else [CACHE_NAME]).
Proof.
  destruct (on_install_run env locate w)
    as (res & w' & stores & -> & _ & _ & _ & Hcases). simpl.
  destruct Hcases as [(rs & _ & _ & _ & -> & _)|(_ & _ & -> & _)];
    rewrite ?put_all_names;
    destruct (has_cache CACHE_NAME (caches w));
    by rewrite ?fmap_app, ?app_nil_r.
Qed.

Lemma on_install_stored (env : Platform) (locate : string → Request) (w : World) :
  (∀ u, u ∈ urlsToCache → ∃ r, network env (locate u) = Ok r ∧ response_ok r = true) →
  (on_install env locate w).1 = Ok tt
  ∧ ∀ u r, u ∈ urlsToCache → network env (locate u) = Ok r →
           ∃ c, storage_lookup (caches (on_install env locate w).2) CACHE_NAME = Some c
                ∧ cache_match c (locate u) = Some r.
Proof.
  intros Hall.
  destruct (on_install_run env locate w)
    as (res & w' & stores & -> & _ & _ & _ & Hcases). simpl.
  destruct Hcases as [(rs & Hrs & _ & -> & -> & _)|(Hnone & _)].
  - split; [done|]. intros u r Hu Hr.
    destruct (zip_urls_responses env locate urlsToCache rs Hrs) as [Hnet Hin].
    eapply put_all_lookup; [apply has_cache_after_open | exact Hnet | by apply Hin].
  - exfalso. destruct (responses_exist _ response_ok _ Hall) as (rs & Hrs & Hok).
    rewrite (Hnone rs Hrs) in Hok. discriminate.
Qed.

(** X5.  Whether or not the manifest can be fetched, install opens (and so
    creates) the current cache, removes no cache, and calls skipWaiting
    before any asset is requested. *)
Theorem install_opens_cache_and_skips_waiting (env : Platform)
    (locate : string → Request) (w : World) :
  CACHE_NAME ∈ (caches (on_install env locate w).2).*1
  ∧ (caches (on_install env locate w).2).*1
    = (caches w).*1 ++ (if has_cache CACHE_NAME (caches w) then [] else [CACHE_NAME])
  ∧ ∃ rest, trace (on_install env locate w).2
            = trace w
              ++ [ELog "🔧 SW: Installing Simple Reminder Service Worker...";
                  ECachesOpen CACHE_NAME; ESkipWaiting]
              ++ rest
            ∧ ESkipWaiting ∉ rest.
Proof.
  pose proof (on_install_names env locate w) as Hnames.
  destruct (on_install_run env locate w)
    as (res & w' & stores & Hrun & _ & _ & Ht & Hcases).
  rewrite Hrun in *. simpl in *.
  split; [|split; [exact Hnames|]].
  - rewrite Hnames. destruct (has_cache CACHE_NAME (caches w)) eqn:Hhas.
    + rewrite app_nil_r. by apply bool_decide_eq_true in Hhas.
    + apply elem_of_app. right. left.
  - exists (ELog "📦 SW: Caching app files"
            :: map (λ u, EFetch (locate u)) urlsToCache ++ stores).
    split; [rewrite Ht; reflexivity|].
    intros Hin. apply elem_of_cons in Hin as [?|Hin]; [done|].
    apply elem_of_app in Hin as [Hin|Hin].
    + apply list_elem_of_fmap in Hin as (u & ? & _). done.
    + destruct Hcases as [(rs & _ & _ & _ & _ & ->)|(_ & _ & _ & ->)].
      * apply list_elem_of_fmap in Hin as (e & ? & _). done.
      * by apply elem_of_nil in Hin.
Qed.

(** X6.  Install is all or nothing: when the fetch of one manifest asset
    fails or its response is not ok, the promise given to waitUntil is
    rejected, no put is issued and every lookup is answered as before. *)
Theorem install_failure_stores_nothing (env : Platform) (locate : string → Request)
    (w : World) (u : string) :
  u ∈ urlsToCache →
  (∀ r, network env (locate u) = Ok r → response_ok r = false) →
  (∃ e, (on_install env locate w).1 = Err e)
  ∧ (∀ request, storage_match (caches (on_install env locate w).2) request
                = storage_match (caches w) request)
  ∧ ∃ es, trace (on_install env locate w).2 = trace w ++ es
          ∧ ∀ name request response, ECachePut name request response ∉ es.
Proof.
  intros Hu Hbad.
  destruct (on_install_run env locate w)
    as (res & w' & stores & -> & _ & _ & Ht & Hcases). simpl.
  destruct Hcases as [(rs & Hrs & Hok & _)|(_ & He & -> & ->)].
  - exfalso. destruct (responses_of_urls _ _ _ Hrs) as [_ Hall].
    destruct (Hall u Hu) as (r & Hr & Hin).
    rewrite (forallb_false_elem _ _ r Hin (Hbad r Hr)) in Hok. discriminate.
  - split; [exact He|]. split; [intros request; apply storage_match_after_open|].
    eexists. split; [exact Ht|]. intros name request response Hin.
    rewrite app_nil_r in Hin. apply elem_of_app in Hin as [Hin|Hin].
    + repeat (apply elem_of_cons in Hin as [?|Hin]; [done|]).
      by apply elem_of_nil in Hin.
    + apply list_elem_of_fmap in Hin as (u' & ? & _). done.
Qed.

Lemma install_failure_stores_nothing_witness :
  "./app.js" ∈ urlsToCache
  ∧ (∀ r, network desktop_missing (at_root "./app.js") = Ok r → response_ok r = false)
  ∧ (∃ e, (on_install desktop_missing at_root installed).1 = Err e)
  ∧ storage_match (caches (on_install desktop_missing at_root installed).2) app_js
    = None.
Proof.
  assert ("./app.js" ∈ urlsToCache) as Hu by (right; right; left).
  assert (∀ r, network desktop_missing (at_root "./app.js") = Ok r →
               response_ok r = false) as Hbad by (by intros r [= <-]).
  split; [exact Hu|]. split; [exact Hbad|].
  destruct (install_failure_stores_nothing desktop_missing at_root installed
              "./app.js" Hu Hbad) as (He & Hsame & _).
  split; [exact He|]. rewrite Hsame. reflexivity.
Defined.

(** X7.  When every manifest asset is fetched with an ok response, install
    is fulfilled and the current cache answers each asset's request with
    the response the network gave. *)
Theorem install_success_stores_manifest (env : Platform) (locate : string → Request)
    (w : World) :
  (∀ u, u ∈ urlsToCache → ∃ r, network env (locate u) = Ok r ∧ response_ok r = true) →
  (on_install env locate w).1 = Ok tt
  ∧ ∀ u r, u ∈ urlsToCache → network env (locate u) = Ok r →
           ∃ c, storage_lookup (caches (on_install env locate w).2) CACHE_NAME = Some c
                ∧ cache_match c (locate u) = Some r.
Proof.
  intros Hall. destruct (on_install_stored env locate w Hall) as [Hok Hstored].
  split; [exact Hok|]. intros u r Hu Hr. exact (Hstored u r Hu Hr).
Qed.

Lemma install_success_stores_manifest_witness :
  (∀ u, u ∈ urlsToCache →
        ∃ r, network desktop_online (at_root u) = Ok r ∧ response_ok r = true)
  ∧ (on_install desktop_online at_root only_stale).1 = Ok tt
  ∧ ∃ c, storage_lookup (caches (on_install desktop_online at_root only_stale).2)
           CACHE_NAME = Some c
         ∧ cache_match c app_js = Some page_html.
Proof.
  assert (∀ u, u ∈ urlsToCache →
               ∃ r, network desktop_online (at_root u) = Ok r ∧ response_ok r = true)
    as Hall by (intros u _; by exists page_html).
  split; [exact Hall|].
  destruct (install_success_stores_manifest desktop_online at_root only_stale Hall)
    as (Hok & Hstored).
  split; [exact Hok|].
  apply (Hstored "./app.js" page_html); [right; right; left | reflexivity].
Defined.

Lemma on_fetch_hit (env : Platform) (request : Request) (w : World)
    (cached : Response) :
  is_bypass (url request) = false →
  storage_match (caches w) request = Some cached →
  on_fetch env request w
  = (RespondWith (Ok cached),
     emit (ELog "📦 SW: Serving from cache:") (emit (ECachesMatch request) w)).
Proof.
  intros Hc Hhit. rewrite (on_fetch_cacheable _ _ _ Hc).
  unfold cache_first, catch_, then_, caches_match. simpl. by rewrite Hhit.
Qed.

Lemma storage_match_filter_current_hit (cs : CacheStorage) (c : Cache)
    (request : Request) (response : Response) :
  storage_lookup cs CACHE_NAME = Some c → cache_match c request = Some response →
  storage_match (filter (λ nc, nc.1 = CACHE_NAME) cs) request = Some response.
Proof.
  intros Hlook Hmatch. induction cs as [|[n c0] cs IH]; [done|].
  simpl in Hlook. rewrite filter_cons. simpl.
  destruct (decide (n = CACHE_NAME)) as [->|Hne].
  - injection Hlook as ->. simpl. by rewrite Hmatch.
  - by apply IH.
Qed.

(** X8.  The offline shell: after an install in which every manifest asset
    was fetched with an ok response, followed by activation, the request of
    a manifest asset that is not a bypass request is answered from the
    cache with the installed response and without a network call, whatever
    the network would now answer. *)
Theorem installed_asset_is_served_offline (env env' : Platform)
    (locate : string → Request) (w : World) (u : string) (r : Response) :
  (∀ u', u' ∈ urlsToCache →
         ∃ r', network env (locate u') = Ok r' ∧ response_ok r' = true) →
  u ∈ urlsToCache →
  network env (locate u) = Ok r →
  is_bypass (url (locate u)) = false →
  page_response env' (locate u) (on_activate (on_install env locate w).2).2 = Ok r
  ∧ ∃ w3, on_fetch env' (locate u) (on_activate (on_install env locate w).2).2
          = (RespondWith (Ok r), w3)
          ∧ trace w3 = trace (on_activate (on_install env locate w).2).2
                       ++ [ECachesMatch (locate u); ELog "📦 SW: Serving from cache:"].
Proof.
  intros Hall Hu Hr Hc.
  destruct (on_install_stored env locate w Hall) as [_ Hstored].
  destruct (Hstored u r Hu Hr) as (c & Hlook & Hmatch).
  destruct (on_activate_run (on_install env locate w).2) as (w2 & Hrun & Hcs & _).
  rewrite Hrun. simpl.
  assert (storage_match (caches w2) (locate u) = Some r) as Hhit.
  { rewrite Hcs. by eapply storage_match_filter_current_hit. }
  split.
  - unfold page_response. by rewrite (on_fetch_hit _ _ _ _ Hc Hhit).
  - rewrite (on_fetch_hit _ _ _ _ Hc Hhit). eexists. split; [done|].
    simpl. by rewrite <- app_assoc.
Qed.

Lemma installed_asset_is_served_offline_witness :
  (∀ u', u' ∈ urlsToCache →
         ∃ r', network desktop_online (at_root u') = Ok r' ∧ response_ok r' = true)
  ∧ "./index.html" ∈ urlsToCache
  ∧ network desktop_online (at_root "./index.html") = Ok page_html
  ∧ is_bypass (url (at_root "./index.html")) = false
  ∧ page_response iphone_offline (at_root "./index.html")
      (on_activate (on_install desktop_online at_root upgraded).2).2 = Ok page_html.
Proof.
  assert (∀ u', u' ∈ urlsToCache →
                ∃ r', network desktop_online (at_root u') = Ok r'
                      ∧ response_ok r' = true)
    as Hall by (intros u _; by exists page_html).
  assert ("./index.html" ∈ urlsToCache) as Hu by (right; left).
  split; [exact Hall|]. split; [exact Hu|]. split; [reflexivity|].
  split; [reflexivity|].
  exact (proj1 (installed_asset_is_served_offline desktop_online iphone_offline
                  at_root upgraded "./index.html" page_html Hall Hu eq_refl eq_refl)).
Defined.

(** X9.  Install followed by activation leaves exactly one cache, the
    current one, whatever caches existed before (their names being
    distinct) and whether or not the manifest could be fetched. *)
Theorem install_then_activate_leaves_current (env : Platform)
    (locate : string → Request) (w : World) :
  NoDup (caches w).*1 →
  fst <$> caches (on_activate (on_install env locate w).2).2 = [CACHE_NAME].
Proof.
  intros Hnd.
  destruct (on_activate_run (on_install env locate w).2) as (w2 & -> & Hcs & _).
  simpl. rewrite Hcs, names_of_current, on_install_names.
  destruct (has_cache CACHE_NAME (caches w)) eqn:Hhas.
  - rewrite app_nil_r. apply filter_current_present; [done|].
    by apply bool_decide_eq_true in Hhas.
  - apply bool_decide_eq_false in Hhas. apply filter_current_present.
    + apply NoDup_app. split; [done|]. split; [|apply NoDup_singleton].
      intros n Hn [->|Hin]%elem_of_cons; [done|by apply elem_of_nil in Hin].
    + apply elem_of_app. right. left.
Qed.

Lemma install_then_activate_leaves_current_witness :
  NoDup (caches only_stale).*1
  ∧ fst <$> caches (on_activate (on_install iphone_offline at_root only_stale).2).2
    = [CACHE_NAME].
Proof.
  assert (NoDup (caches only_stale).*1) as Hnd
    by (apply (bool_decide_unpack (NoDup (caches only_stale).*1));
        vm_compute; exact I).
  split; [exact Hnd|].
  exact (install_then_activate_leaves_current iphone_offline at_root only_stale Hnd).
Defined.

(** ** push, beyond the claims *)

Lemma parse_push_data_pinned (env : Platform) (data : option PushMessageData) :
  ∃ nd, parse_push_data (default_notificationData env) data = Ok nd
        ∧ nd !! "requireInteraction" = Some (VBool true)
        ∧ nd !! "vibrate" = Some default_vibrate.
Proof.
  destruct data as [d|]; simpl.
  - destruct (json d) as [pushData|e]; simpl.
    + eexists. split; [done|]. apply merge_pushData_pinned.
    + eexists. split; [done|]. by rewrite !lookup_insert_ne.
  - by eexists.
Qed.

(** X10.  Whatever the payload, and whether or not it parses, the
    descriptor displayed has requireInteraction true, and its vibrate
    pattern is the three element pattern on iOS, the default pattern
    elsewhere: no payload changes either. *)
Theorem push_always_requires_interaction (env : Platform)
    (data : option PushMessageData) :
  ∃ nd, notificationData env data = Ok nd
        ∧ nd !! "requireInteraction" = Some (VBool true)
        ∧ nd !! "vibrate"
          = Some (if isIOS env then VArr [VNum 200; VNum 100; VNum 200]
                  else default_vibrate).
Proof.
  unfold notificationData.
  destruct (parse_push_data_pinned env data) as (nd & -> & Hri & Hvib).
  eexists. split; [done|]. unfold platform_pass. destruct (isIOS env).
  - split.
    + rewrite lookup_insert_ne by done. apply lookup_insert_eq.
    + rewrite !lookup_insert_ne by done. apply lookup_insert_eq.
  - by rewrite !lookup_insert_ne.
Qed.

(** X11.  On iOS the badge displayed is the fixed iOS badge even when the
    payload has a badge of its own; elsewhere it is the payload's badge
    when the payload parses and has one, the default badge otherwise. *)
Theorem push_badge_by_platform (env : Platform) (data : option PushMessageData) :
  ∃ nd, notificationData env data = Ok nd
        ∧ (isIOS env = true → nd !! "badge" = Some (VStr ios_badge))
        ∧ (isIOS env = false →
           nd !! "badge"
           = Some (default (VStr default_badge) (payload_field data "badge")))
        ∧ ios_badge ≠ default_badge.
Proof.
  unfold notificationData.
  assert (∃ nd, parse_push_data (default_notificationData env) data = Ok nd
                ∧ nd !! "badge"
                  = Some (default (VStr default_badge) (payload_field data "badge")))
    as (nd & -> & Hbadge).
  { destruct data as [d|]; simpl.
    - destruct (json d) as [pushData|e]; simpl.
      + eexists. split; [done|]. rewrite merge_pushData_other by done.
        by destruct (own_props pushData !! "badge").
      + eexists. split; [done|]. by rewrite lookup_insert_ne.
    - by eexists. }
  eexists. split; [done|]. unfold platform_pass.
  split; [|split]; [intros -> ..|].
  - apply lookup_insert_eq.
  - by rewrite lookup_insert_ne.
  - intros Heq. vm_compute in Heq. discriminate.
Qed.

Lemma push_badge_by_platform_witness :
  isIOS iphone_offline = true ∧ isIOS desktop_online = false
  ∧ (∃ nd, notificationData iphone_offline (Some own_badge) = Ok nd
           ∧ nd !! "badge" = Some (VStr ios_badge))
  ∧ (∃ nd, notificationData desktop_online (Some own_badge) = Ok nd
           ∧ nd !! "badge" = Some (VStr "/badge.png")).
Proof.
  split; [reflexivity|]. split; [reflexivity|]. split.
  - destruct (push_badge_by_platform iphone_offline (Some own_badge))
      as (nd & Hnd & Hios & _).
    exists nd. split; [exact Hnd | exact (Hios eq_refl)].
  - destruct (push_badge_by_platform desktop_online (Some own_badge))
      as (nd & Hnd & _ & Hfull & _).
    exists nd. split; [exact Hnd | exact (Hfull eq_refl)].
Defined.

Lemma relayed_app (es1 es2 : list Effect) :
  relayed (es1 ++ es2) = relayed es1 ++ relayed es2.
Proof. apply omap_app. Qed.

Lemma relayed_posts (clients : list nat) (message : JSObject) :
  relayed (map (λ c, EClientPostMessage c message) clients)
  = map (λ c, (c, message)) clients.
Proof. induction clients as [|c clients IH]; [done|]. simpl. by rewrite <- IH. Qed.

(** X12.  After asking for the display the listener relays it: when the
    platform displays, every open window is posted one message, in the
    order of the windows, of type REMINDER_NOTIFICATION_SHOWN and carrying
    the displayed descriptor; when the platform refuses, no window is
    posted anything and the error is printed.  Either way the listener's
    promise is fulfilled. *)
Theorem push_relays_to_every_window (env : Platform) (data : option PushMessageData)
    (w : World) :
  ∃ es nd message,
    trace (on_push env data w).2 = trace w ++ es
    ∧ (on_push env data w).1 = Ok tt
    ∧ notificationData env data = Ok nd
    ∧ message !! "type" = Some (VStr "REMINDER_NOTIFICATION_SHOWN")
    ∧ message !! "notification" = Some (VObj nd)
    ∧ message !! "timestamp" = Some (VNum (now env))
    ∧ relayed es = (if permitted env then map (λ c, (c, message)) (windows env)
                    else [])
    ∧ (permitted env = false →
       EError "❌ SW: Error showing Pi reminder notification:" ∈ es).
Proof.
  destruct (notificationData_total env data) as [nd Hnd].
  exists (drop (length (trace w)) (trace (on_push env data w).2)), nd,
    (list_to_map
       [("type", VStr "REMINDER_NOTIFICATION_SHOWN");
        ("notification", VObj nd);
        ("timestamp", VNum (now env))]).
  destruct (on_push_displays env data w nd Hnd) as (Hok & es & Ht & _).
  split; [by rewrite Ht, drop_app_length|]. split; [exact Hok|].
  split; [exact Hnd|]. split; [done|]. split; [done|]. split; [done|].
  clear Ht Hok es.
  unfold on_push, then_. simpl. rewrite Hnd.
  unfold catch_, then_, log_when, console_log, console_error, showNotification,
    clients_matchAll, resolve.
  destruct (bool_decide (payload_parsed data = Some true)),
    (bool_decide (payload_parsed data = Some false)),
    (isIOS env), (permitted env); simpl;
    try (destruct (bool_decide_reflect (windows env = [])) as [Hnil|Hsome]; simpl;
         [rewrite Hnil|rewrite for_each_post; simpl]);
    rewrite <- ?app_assoc, drop_app_length; simpl;
    rewrite ?relayed_app, ?relayed_posts, ?app_nil_r;
    (split; [done|]); intros Hp; try discriminate;
    repeat (first [left; reflexivity | right]).
Qed.

Lemma push_relays_to_every_window_witness :
  permitted desktop_refused = false
  ∧ ∃ es, trace (on_push desktop_refused None installed).2 = trace installed ++ es
          ∧ relayed es = []
          ∧ EError "❌ SW: Error showing Pi reminder notification:" ∈ es.
Proof.
  split; [reflexivity|].
  destruct (push_relays_to_every_window desktop_refused None installed)
    as (es & nd & message & Ht & _ & _ & _ & _ & _ & Hrelayed & Herr).
  exists es. split; [exact Ht|]. split; [exact Hrelayed | exact (Herr eq_refl)].
Defined.

(** X13.  A payload that parses to a value without properties of its own
    (null, a number, a boolean, an empty object) changes nothing: the
    descriptor displayed is the one displayed for a push without payload. *)
Theorem push_payload_without_properties (env : Platform) (d : PushMessageData)
    (pushData : Value) :
  json d = Ok pushData →
  own_props pushData = ∅ →
  notificationData env (Some d) = notificationData env None.
Proof.
  intros Hjson Hempty. unfold notificationData. simpl. rewrite Hjson. simpl.
  do 2 f_equal. apply map_eq. intros k.
  destruct (decide (k = "requireInteraction")) as [->|H1];
    [by rewrite (proj1 (merge_pushData_pinned _ _))|].
  destruct (decide (k = "vibrate")) as [->|H2];
    [by rewrite (proj2 (merge_pushData_pinned _ _))|].
  rewrite merge_pushData_other by done. by rewrite Hempty, lookup_empty.
Qed.

Lemma push_payload_without_properties_witness :
  json null_payload = Ok VNull
  ∧ own_props VNull = ∅
  ∧ notificationData iphone_offline (Some null_payload)
    = notificationData iphone_offline None.
Proof.
  split; [reflexivity|]. split; [reflexivity|].
  exact (push_payload_without_properties iphone_offline null_payload VNull
           eq_refl eq_refl).
Defined.

(** ** message, beyond the claims *)

Lemma type_is_other (data : Value) (b1 b2 : Branch) :
  type_is data (branch_tag b1) = true → b1 ≠ b2 →
  type_is data (branch_tag b2) = false.
Proof.
  intros H1 Hne. destruct (type_is data (branch_tag b2)) eqn:H2; [|done].
  by destruct (Hne (tests_exclusive data b1 b2 H1 H2)).
Qed.

(** X14.  A GET_VERSION message that comes with a reply port is answered
    on that port with the current cache name as version and the type
    simple-reminders; the listener does nothing else. *)
Theorem message_get_version_replies (data : Value) (ports : nat) (w : World) :
  type_is data "GET_VERSION" = true →
  (0 < ports)%nat →
  ∃ w' reply,
    on_message data ports w = (Ok tt, w')
    ∧ trace w' = trace w ++ [ELog "📨 SW: Received message from app:";
                             EPortPostMessage 0 reply]
    ∧ reply !! "version" = Some (VStr CACHE_NAME)
    ∧ reply !! "type" = Some (VStr "simple-reminders")
    ∧ size reply = 2%nat.
Proof.
  intros Hget Hports. unfold on_message.
  assert (type_is data "SKIP_WAITING" = false) as Hno_SKIP_WAITING
    by exact (type_is_other data GET_VERSION SKIP_WAITING Hget ltac:(done)).
  rewrite Hno_SKIP_WAITING.
  assert (type_is data "SYNC_REMINDERS" = false) as Hno_SYNC_REMINDERS
    by exact (type_is_other data GET_VERSION SYNC_REMINDERS Hget ltac:(done)).
  rewrite Hno_SYNC_REMINDERS.
  rewrite Hget. unfold then_, console_log, port_postMessage, resolve. simpl.
  apply Nat.ltb_lt in Hports. rewrite Hports.
  eexists _, _. split; [done|]. simpl. rewrite <- app_assoc.
  split; [done|]. split; [done|]. split; [done|]. by vm_compute.
Qed.

Lemma message_get_version_replies_witness :
  type_is get_version "GET_VERSION" = true
  ∧ (0 < 1)%nat
  ∧ ∃ w' reply,
      on_message get_version 1 installed = (Ok tt, w')
      ∧ reply !! "version" = Some (VStr "simple-reminders-v1")
      ∧ EPortPostMessage 0 reply ∈ trace w'.
Proof.
  split; [reflexivity|]. split; [lia|].
  destruct (message_get_version_replies get_version 1 installed eq_refl ltac:(lia))
    as (w' & reply & Hrun & Ht & Hv & _).
  exists w', reply. split; [exact Hrun|]. split; [exact Hv|].
  rewrite Ht. right. left.
Defined.

(** X15.  The message listener throws in one case only: a GET_VERSION
    message that comes without a reply port, where reading the port fails
    and nothing is posted.  Every other message is handled to the end. *)
Theorem message_throws_only_without_port (data : Value) (ports : nat) (w : World) :
  (type_is data "GET_VERSION" = true ∧ ports = 0%nat →
   on_message data ports w
   = (Err "TypeError", emit (ELog "📨 SW: Received message from app:") w))
  ∧ (¬ (type_is data "GET_VERSION" = true ∧ ports = 0%nat) →
     (on_message data ports w).1 = Ok tt).
Proof.
  split.
  - intros [Hget ->]. unfold on_message.
    assert (type_is data "SKIP_WAITING" = false) as Hno_SKIP_WAITING
      by exact (type_is_other data GET_VERSION SKIP_WAITING Hget ltac:(done)).
    rewrite Hno_SKIP_WAITING.
    by rewrite Hget.
  - intros Hnot. unfold on_message, then_, console_log, skip_waiting,
      port_postMessage, resolve. simpl.
    destruct (type_is data "SKIP_WAITING"), (type_is data "GET_VERSION") eqn:Hget,
      (type_is data "SYNC_REMINDERS"); simpl;
      try done;
      (destruct ports as [|n]; [by destruct Hnot|done]).
Qed.

Lemma message_throws_only_without_port_witness :
  (type_is get_version "GET_VERSION" = true ∧ 0%nat = 0%nat)
  ∧ (on_message get_version 0 installed).1 = Err "TypeError"
  ∧ ¬ (type_is unknown_message "GET_VERSION" = true ∧ 0%nat = 0%nat)
  ∧ (on_message unknown_message 0 installed).1 = Ok tt.
Proof.
  assert (type_is get_version "GET_VERSION" = true ∧ 0%nat = 0%nat) as Hyes
    by (split; reflexivity).
  assert (¬ (type_is unknown_message "GET_VERSION" = true ∧ 0%nat = 0%nat)) as Hno
    by (intros [H _]; vm_compute in H; discriminate).
  split; [exact Hyes|]. split; [|split; [exact Hno|]].
  - rewrite (proj1 (message_throws_only_without_port get_version 0 installed) Hyes).
    reflexivity.
  - exact (proj2 (message_throws_only_without_port unknown_message 0 installed) Hno).
Defined.

(** X16.  A message that is falsy, or whose type property is none of the
    three constants (in particular any value that is not an object), is
    ignored: the listener prints its first line and calls nothing. *)
Theorem message_unrecognised_is_ignored (data : Value) (ports : nat) (w : World) :
  truthy data = false ∨ (∀ b, get_prop data "type" ≠ VStr (branch_tag b)) →
  on_message data ports w
  = (Ok tt, emit (ELog "📨 SW: Received message from app:") w).
Proof.
  intros H.
  assert (∀ b, type_is data (branch_tag b) = false) as Hno.
  { intros b. destruct (type_is data (branch_tag b)) eqn:Hb; [|done].
    destruct H as [Hf|Hne].
    - unfold type_is in Hb. by rewrite Hf in Hb.
    - by destruct (Hne b (type_is_tag _ _ Hb)). }
  pose proof (Hno SKIP_WAITING) as H1. pose proof (Hno GET_VERSION) as H2.
  pose proof (Hno SYNC_REMINDERS) as H3. simpl in H1, H2, H3.
  unfold on_message. by rewrite H1, H2, H3.
Qed.

Lemma message_unrecognised_is_ignored_witness :
  (truthy VNull = false ∨ (∀ b, get_prop VNull "type" ≠ VStr (branch_tag b)))
  ∧ (truthy unknown_message = false
     ∨ (∀ b, get_prop unknown_message "type" ≠ VStr (branch_tag b)))
  ∧ trace (on_message VNull 1 installed).2
    = [ELog "📨 SW: Received message from app:"]
  ∧ trace (on_message unknown_message 1 installed).2
    = [ELog "📨 SW: Received message from app:"].
Proof.
  assert (truthy VNull = false ∨ (∀ b, get_prop VNull "type" ≠ VStr (branch_tag b)))
    as H1 by (left; reflexivity).
  assert (truthy unknown_message = false
          ∨ (∀ b, get_prop unknown_message "type" ≠ VStr (branch_tag b)))
    as H2 by (right; intros b; destruct b; vm_compute; discriminate).
  split; [exact H1|]. split; [exact H2|]. split.
  - rewrite (message_unrecognised_is_ignored VNull 1 installed H1). reflexivity.
  - rewrite (message_unrecognised_is_ignored unknown_message 1 installed H2).
    reflexivity.
Defined.

(** X17.  A SKIP_WAITING message makes the listener call skipWaiting once
    and nothing else; no reply is posted even when a port came with it. *)
Theorem message_skip_waiting (data : Value) (ports : nat) (w : World) :
  type_is data "SKIP_WAITING" = true →
  ∃ w', on_message data ports w = (Ok tt, w')
        ∧ trace w' = trace w ++ [ELog "📨 SW: Received message from app:";
                                 ELog "⏭️ SW: Skip waiting requested";
                                 ESkipWaiting]
        ∧ caches w' = caches w.
Proof.
  intros Hskip. unfold on_message.
  assert (type_is data "GET_VERSION" = false) as Hno_GET_VERSION
    by exact (type_is_other data SKIP_WAITING GET_VERSION Hskip ltac:(done)).
  rewrite Hno_GET_VERSION.
  assert (type_is data "SYNC_REMINDERS" = false) as Hno_SYNC_REMINDERS
    by exact (type_is_other data SKIP_WAITING SYNC_REMINDERS Hskip ltac:(done)).
  rewrite Hno_SYNC_REMINDERS.
  rewrite Hskip. unfold then_, console_log, skip_waiting, resolve. simpl.
  eexists. split; [done|]. simpl. by rewrite <- !app_assoc.
Qed.

Lemma message_skip_waiting_witness :
  type_is skip_waiting_message "SKIP_WAITING" = true
  ∧ ∃ w', on_message skip_waiting_message 1 installed = (Ok tt, w')
          ∧ ESkipWaiting ∈ trace w'.
Proof.
  split; [reflexivity|].
  destruct (message_skip_waiting skip_waiting_message 1 installed eq_refl)
    as (w' & Hrun & Ht & _).
  exists w'. split; [exact Hrun|]. rewrite Ht. right. right. left.
Defined.

(** ** notificationclick *)

Lemma find_first {A} (f : A → bool) (l : list A) (x : A) :
  List.find f l = Some x →
  ∃ before after, l = before ++ x :: after
                  ∧ f x = true
                  ∧ ∀ y, y ∈ before → f y = false.
Proof.
  induction l as [|a l IH]; simpl; [done|].
  destruct (f a) eqn:Ha.
  - intros [= <-]. exists [], l. split; [done|]. split; [done|].
    intros y Hy. by apply elem_of_nil in Hy.
  - intros Hfind. destruct (IH Hfind) as (before & after & -> & Hx & Hbefore).
    exists (a :: before), after. split; [done|]. split; [done|].
    intros y [->|Hy]%elem_of_cons; [done|by apply Hbefore].
Qed.

(** X18.  A click on the dismiss action closes the notification and does
    nothing else: the windows are not listed, none is focused or opened,
    no message is posted and no timer is set. *)
Theorem click_dismiss_only_closes (env : Platform) (wins : Windows)
    (event : NotificationEvent) (d : Desk) :
  action event = "dismiss" →
  ∃ d', on_notificationclick env wins event d = (Ok tt, d')
        ∧ calls d' = calls d
                     ++ [CLog "🖱️ SW: Pi reminder notification clicked";
                         CLog "🎯 SW: Action:";
                         CNotificationClose;
                         CLog "✕ SW: Pi reminder notification dismissed"]
        ∧ timers d' = timers d.
Proof.
  intros Hdismiss. unfold on_notificationclick, bind_, say, notification_close.
  simpl. rewrite bool_decide_true by done.
  eexists. split; [done|]. simpl. by rewrite <- !app_assoc.
Qed.

Lemma click_dismiss_only_closes_witness :
  action dismiss_click = "dismiss"
  ∧ ∃ d', on_notificationclick desktop_online app_open dismiss_click idle = (Ok tt, d')
          ∧ posted (calls d') = [] ∧ timers d' = [].
Proof.
  split; [reflexivity|].
  destruct (click_dismiss_only_closes desktop_online app_open dismiss_click idle eq_refl)
    as (d' & Hrun & Hcalls & Htimers).
  exists d'. split; [exact Hrun|]. split; [by rewrite Hcalls | exact Htimers].
Defined.

(** X19.  Whatever the action, the windows and the outcome of focusing or
    opening, the listener closes the notification, once and before any
    other call, and its work is never rejected: a failure is printed. *)
Theorem click_always_closes_first (env : Platform) (wins : Windows)
    (event : NotificationEvent) (d : Desk) :
  (on_notificationclick env wins event d).1 = Ok tt
  ∧ ∃ rest, calls (on_notificationclick env wins event d).2
            = calls d
              ++ [CLog "🖱️ SW: Pi reminder notification clicked";
                  CLog "🎯 SW: Action:";
                  CNotificationClose]
              ++ rest
            ∧ CNotificationClose ∉ rest.
Proof.
  unfold on_notificationclick, bind_ at 1 2 3, say at 1 2, notification_close.
  cbn [fst snd].
  destruct (bool_decide (action event = "dismiss")).
  { simpl. split; [done|]. eexists. split; [by rewrite <- !app_assoc|].
    intros [?|Hin]%elem_of_cons; [done|]. by apply elem_of_nil in Hin. }
  unfold rescue, bind_, matchAll, say, client_focus, postMessage, open_window,
    setTimeout, complain, pure_. cbn [fst snd].
  destruct (find (suitable env) (window_clients wins)) as [client|].
  - destruct (focus wins client) as [focused|e]; simpl;
      (split; [done|]); (eexists; split; [by rewrite <- !app_assoc|]);
      intros Hin; repeat (apply elem_of_cons in Hin as [?|Hin]; [done|]);
      by apply elem_of_nil in Hin.
  - destruct (openWindow wins) as [open|]; [destruct (open "./") as [c|e]|]; simpl;
      (split; [done|]); (eexists; split; [by rewrite <- !app_assoc|]);
      intros Hin; repeat (apply elem_of_cons in Hin as [?|Hin]; [done|]);
      by apply elem_of_nil in Hin.
Qed.

(** X20.  When the click is not on dismiss and some listed window has a
    url that includes the worker's origin and can be focused, the first
    such window in the list is focused and, once focused, posted one
    message of type REMINDER_NOTIFICATION_CLICKED with the notification's
    data and the action, a plain click being reported as default.  No
    window is opened and no timer is set. *)
Theorem click_focuses_first_suitable_window (env : Platform) (wins : Windows)
    (event : NotificationEvent) (d : Desk) (client focused : WindowClient) :
  action event ≠ "dismiss" →
  List.find (suitable env) (window_clients wins) = Some client →
  focus wins client = Ok focused →
  (∃ before after,
     window_clients wins = before ++ client :: after
     ∧ suitable env client = true
     ∧ ∀ c, c ∈ before → suitable env c = false)
  ∧ ∃ d' message,
      on_notificationclick env wins event d = (Ok tt, d')
      ∧ calls d' = calls d
                   ++ [CLog "🖱️ SW: Pi reminder notification clicked";
                       CLog "🎯 SW: Action:";
                       CNotificationClose;
                       CMatchAll;
                       CLog "🔍 SW: Found";
                       CLog "🎯 SW: Focusing existing app window";
                       CFocus (client_id client);
                       CPostMessage (client_id focused) message]
      ∧ timers d' = timers d
      ∧ message !! "type" = Some (VStr "REMINDER_NOTIFICATION_CLICKED")
      ∧ message !! "data" = Some (notification_data event)
      ∧ message !! "timestamp" = Some (VNum (now env))
      ∧ (action event = "" → message !! "action" = Some (VStr "default"))
      ∧ (action event ≠ "" → message !! "action" = Some (VStr (action event))).
Proof.
  intros Hne Hfind Hfocus. split; [by apply find_first|].
  exists (call (CPostMessage (client_id focused) (clicked_message event (now env)))
            (call (CFocus (client_id client))
               (call (CLog "🎯 SW: Focusing existing app window")
                  (call (CLog "🔍 SW: Found")
                     (call CMatchAll
                        (call CNotificationClose
                           (call (CLog "🎯 SW: Action:")
                              (call (CLog "🖱️ SW: Pi reminder notification clicked")
                                 d)))))))),
    (clicked_message event (now env)).
  split.
  - unfold on_notificationclick, bind_ at 1 2 3, say at 1 2, notification_close.
    cbn [fst snd]. rewrite bool_decide_false by done.
    unfold rescue, bind_, matchAll, say, client_focus, postMessage. cbn [fst snd].
    rewrite Hfind. cbn [fst snd]. by rewrite Hfocus.
  - split; [simpl; by rewrite <- !app_assoc|]. split; [done|].
    split; [done|]. split; [done|]. split; [done|]. unfold clicked_message. split.
    + intros ->. done.
    + intros Hact. by rewrite bool_decide_false.
Qed.

Lemma click_focuses_first_suitable_window_witness :
  action plain_click ≠ "dismiss"
  ∧ List.find (suitable desktop_online) (window_clients app_open) = Some app_tab
  ∧ focus app_open app_tab = Ok app_tab
  ∧ ∃ d' message,
      on_notificationclick desktop_online app_open plain_click idle = (Ok tt, d')
      ∧ posted (calls d') = [(7%nat, message)]
      ∧ message !! "action" = Some (VStr "default").
Proof.
  assert (action plain_click ≠ "dismiss") as Hne by discriminate.
  split; [exact Hne|]. split; [reflexivity|]. split; [reflexivity|].
  destruct (click_focuses_first_suitable_window desktop_online app_open plain_click
              idle app_tab app_tab Hne eq_refl eq_refl)
    as (_ & d' & message & Hrun & Hcalls & _ & _ & _ & _ & Hdefault & _).
  exists d', message. split; [exact Hrun|]. split; [by rewrite Hcalls|].
  exact (Hdefault eq_refl).
Defined.

(** X21.  When focusing the window is rejected, the failure is printed and
    that is all: no message is posted and no new window is opened in its
    place. *)
Theorem click_focus_rejected_is_swallowed (env : Platform) (wins : Windows)
    (event : NotificationEvent) (d : Desk) (client : WindowClient) (e : string) :
  action event ≠ "dismiss" →
  List.find (suitable env) (window_clients wins) = Some client →
  focus wins client = Err e →
  ∃ d', on_notificationclick env wins event d = (Ok tt, d')
        ∧ calls d' = calls d
                     ++ [CLog "🖱️ SW: Pi reminder notification clicked";
                         CLog "🎯 SW: Action:";
                         CNotificationClose;
                         CMatchAll;
                         CLog "🔍 SW: Found";
                         CLog "🎯 SW: Focusing existing app window";
                         CFocus (client_id client);
                         CError "❌ SW: Error handling Pi reminder notification click:"]
        ∧ timers d' = timers d.
Proof.
  intros Hne Hfind Hfocus.
  unfold on_notificationclick, bind_ at 1 2 3, say at 1 2, notification_close.
  cbn [fst snd]. rewrite bool_decide_false by done.
  unfold rescue, bind_, matchAll, say, client_focus, postMessage, complain.
  cbn [fst snd]. rewrite Hfind. cbn [fst snd]. rewrite Hfocus.
  eexists. split; [done|]. simpl. by rewrite <- !app_assoc.
Qed.

Lemma click_focus_rejected_is_swallowed_witness :
  action plain_click ≠ "dismiss"
  ∧ List.find (suitable desktop_online) (window_clients focus_refused) = Some app_tab
  ∧ focus focus_refused app_tab = Err "InvalidAccessError"
  ∧ ∃ d', on_notificationclick desktop_online focus_refused plain_click idle
          = (Ok tt, d')
          ∧ posted (calls d') = [] ∧ timers d' = [].
Proof.
  assert (action plain_click ≠ "dismiss") as Hne by discriminate.
  split; [exact Hne|]. split; [reflexivity|]. split; [reflexivity|].
  destruct (click_focus_rejected_is_swallowed desktop_online focus_refused plain_click
              idle app_tab "InvalidAccessError" Hne eq_refl eq_refl)
    as (d' & Hrun & Hcalls & Htimers).
  exists d'. split; [exact Hrun|]. split; [by rewrite Hcalls | exact Htimers].
Defined.

(** X22.  When the click is not on dismiss, no listed window is suitable
    and the platform can open windows, one window is opened at ./ and no
    message is posted yet: the message is left to a timer of 1000 ms.  When
    the timer fires, the client of the new window is posted one clicked
    message, built at that time; when opening gave no client, the timer
    posts nothing. *)
Theorem click_opens_window_and_posts_later (env : Platform) (wins : Windows)
    (event : NotificationEvent) (d : Desk)
    (open : string → Result (option WindowClient)) (opened : option WindowClient) :
  action event ≠ "dismiss" →
  List.find (suitable env) (window_clients wins) = None →
  openWindow wins = Some open →
  open "./" = Ok opened →
  ∃ d', on_notificationclick env wins event d = (Ok tt, d')
        ∧ calls d' = calls d
                     ++ [CLog "🖱️ SW: Pi reminder notification clicked";
                         CLog "🎯 SW: Action:";
                         CNotificationClose;
                         CMatchAll;
                         CLog "🔍 SW: Found";
                         CLog "🆕 SW: Opening new app window";
                         COpenWindow "./";
                         CSetTimeout 1000]
        ∧ timers d' = timers d ++ [(1000, TPostClicked opened event)]
        ∧ ∀ time d0,
            calls (fire time (TPostClicked opened event) d0)
            = calls d0
              ++ match opened with
                 | Some client =>
                     [CPostMessage (client_id client) (clicked_message event time)]
                 | None => []
                 end.
Proof.
  intros Hne Hfind Hopen Hopened.
  unfold on_notificationclick, bind_ at 1 2 3, say at 1 2, notification_close.
  cbn [fst snd]. rewrite bool_decide_false by done.
  unfold rescue, bind_, matchAll, say, open_window, setTimeout. cbn [fst snd].
  rewrite Hfind, Hopen. cbn [fst snd]. rewrite Hopened.
  eexists. split; [done|]. simpl. rewrite <- !app_assoc.
  split; [done|]. split; [done|]. intros time d0.
  destruct opened; simpl; [done|by rewrite app_nil_r].
Qed.

Lemma click_opens_window_and_posts_later_witness :
  action plain_click ≠ "dismiss"
  ∧ List.find (suitable desktop_online) (window_clients app_closed) = None
  ∧ (∃ open, openWindow app_closed = Some open ∧ open "./" = Ok (Some new_tab))
  ∧ ∃ d', on_notificationclick desktop_online app_closed plain_click idle = (Ok tt, d')
          ∧ posted (calls d') = []
          ∧ posted (calls (fire_all 1700000001000 d'))
            = [(11%nat, clicked_message plain_click 1700000001000)].
Proof.
  assert (action plain_click ≠ "dismiss") as Hne by discriminate.
  split; [exact Hne|]. split; [reflexivity|]. split; [by eexists|].
  destruct (click_opens_window_and_posts_later desktop_online app_closed plain_click
              idle (λ _, Ok (Some new_tab)) (Some new_tab) Hne eq_refl eq_refl eq_refl)
    as (d' & Hrun & Hcalls & Htimers & _).
  exists d'. split; [exact Hrun|]. split; [by rewrite Hcalls|].
  unfold fire_all. rewrite Htimers, Hcalls. reflexivity.
Defined.

(** ** pushsubscriptionchange *)

(** X23.  With an old subscription whose key the push service accepts, the
    listener subscribes with that key and userVisibleOnly, then posts the
    JSON text of the new subscription, once, to the Pi server's /subscribe
    with content type application/json.  An answer with a status from 200
    to 299 is reported as sent, any other status as a failure, and a
    rejected post as an error; in each case the work is fulfilled. *)
Theorem resubscribe_posts_new_subscription (svc : PushService)
    (old new : PushSubscription) (d : Desk) :
  subscribe svc (applicationServerKey old) = Ok new →
  ∃ d', on_pushsubscriptionchange svc (Some old) d = (Ok tt, d')
        ∧ calls d'
          = calls d
            ++ [CLog "🔄 SW: Push subscription changed - re-subscribing...";
                CSubscribe true (applicationServerKey old);
                CLog "✅ SW: Re-subscribed with new subscription";
                CFetchPost "https://192.168.0.147:3001/subscribe" "application/json"
                  (subscription_json new);
                match pi_server svc (subscription_json new) with
                | Ok response =>
                    if (200 <=? status response) && (status response <=? 299)
                    then CLog "✅ SW: New subscription sent to Pi server"
                    else CError "❌ SW: Failed to send new subscription to Pi server"
                | Err _ => CError "❌ SW: Error handling subscription change:"
                end]
        ∧ timers d' = timers d.
Proof.
  intros Hsub.
  unfold on_pushsubscriptionchange, bind_ at 1, say at 1. cbn [fst snd].
  unfold rescue, bind_, pushManager_subscribe, say, fetch_post, complain.
  cbn [fst snd]. rewrite Hsub. cbn [fst snd].
  destruct (pi_server svc (subscription_json new)) as [response|e]; cbn [fst snd].
  - unfold response_ok.
    destruct ((200 <=? status response) && (status response <=? 299));
      (eexists; split; [done|]); simpl; by rewrite <- !app_assoc.
  - eexists. split; [done|]. simpl. by rewrite <- !app_assoc.
Qed.

Lemma resubscribe_posts_new_subscription_witness :
  subscribe pi_accepts (applicationServerKey old_subscription) = Ok new_subscription
  ∧ subscribe pi_rejects (applicationServerKey old_subscription) = Ok new_subscription
  ∧ (∃ d', on_pushsubscriptionchange pi_accepts (Some old_subscription) idle
           = (Ok tt, d')
           ∧ CLog "✅ SW: New subscription sent to Pi server" ∈ calls d')
  ∧ (∃ d', on_pushsubscriptionchange pi_rejects (Some old_subscription) idle
           = (Ok tt, d')
           ∧ CError "❌ SW: Failed to send new subscription to Pi server" ∈ calls d').
Proof.
  split; [reflexivity|]. split; [reflexivity|]. split.
  - destruct (resubscribe_posts_new_subscription pi_accepts old_subscription
                new_subscription idle eq_refl) as (d' & Hrun & Hcalls & _).
    exists d'. split; [exact Hrun|]. rewrite Hcalls.
    right. right. right. right. left.
  - destruct (resubscribe_posts_new_subscription pi_rejects old_subscription
                new_subscription idle eq_refl) as (d' & Hrun & Hcalls & _).
    exists d'. split; [exact Hrun|]. rewrite Hcalls.
    right. right. right. right. left.
Defined.

(** X24.  When the push service rejects the subscription, nothing is sent
    to the Pi server: the error is printed and the work is fulfilled. *)
Theorem resubscribe_rejected_posts_nothing (svc : PushService)
    (old : PushSubscription) (e : string) (d : Desk) :
  subscribe svc (applicationServerKey old) = Err e →
  ∃ d', on_pushsubscriptionchange svc (Some old) d = (Ok tt, d')
        ∧ calls d'
          = calls d
            ++ [CLog "🔄 SW: Push subscription changed - re-subscribing...";
                CSubscribe true (applicationServerKey old);
                CError "❌ SW: Error handling subscription change:"]
        ∧ timers d' = timers d.
Proof.
  intros Hsub.
  unfold on_pushsubscriptionchange, bind_ at 1, say at 1. cbn [fst snd].
  unfold rescue, bind_, pushManager_subscribe, say, fetch_post, complain.
  cbn [fst snd]. rewrite Hsub. cbn [fst snd].
  eexists. split; [done|]. split; [simpl; by rewrite <- !app_assoc|done].
Qed.

Lemma resubscribe_rejected_posts_nothing_witness :
  subscribe push_denied (applicationServerKey old_subscription) = Err "NotAllowedError"
  ∧ ∃ d', on_pushsubscriptionchange push_denied (Some old_subscription) idle
          = (Ok tt, d')
          ∧ length (calls d') = 3%nat.
Proof.
  split; [reflexivity|].
  destruct (resubscribe_rejected_posts_nothing push_denied old_subscription
              "NotAllowedError" idle eq_refl) as (d' & Hrun & Hcalls & _).
  exists d'. split; [exact Hrun|]. by rewrite Hcalls.
Defined.

(** X25.  The listener fails in one case only: when the event carries no
    old subscription, reading its key throws, before the push service is
    asked anything.  With an old subscription the service is asked once
    and the work is fulfilled whatever the service and the server do. *)
Theorem resubscribe_needs_old_subscription (svc : PushService)
    (oldSubscription : option PushSubscription) (d : Desk) :
  (on_pushsubscriptionchange svc oldSubscription d).1
  = match oldSubscription with
    | None => Err "TypeError"
    | Some _ => Ok tt
    end
  ∧ ∃ rest,
      calls (on_pushsubscriptionchange svc oldSubscription d).2
      = calls d ++ [CLog "🔄 SW: Push subscription changed - re-subscribing..."]
        ++ match oldSubscription with
           | None => []
           | Some old => CSubscribe true (applicationServerKey old) :: rest
           end
      ∧ ∀ userVisibleOnly key, CSubscribe userVisibleOnly key ∉ rest.
Proof.
  unfold on_pushsubscriptionchange, bind_ at 1, say at 1. cbn [fst snd].
  destruct oldSubscription as [old|].
  - unfold rescue, bind_, pushManager_subscribe, say, fetch_post, complain.
    cbn [fst snd].
    destruct (subscribe svc (applicationServerKey old)) as [new|e]; cbn [fst snd];
      [destruct (pi_server svc (subscription_json new)) as [r|e]; cbn [fst snd];
       [destruct (response_ok r)|]|];
      (split; [done|]); (eexists; split; [simpl; by rewrite <- !app_assoc|]);
      intros userVisibleOnly key Hin;
      repeat (apply elem_of_cons in Hin as [?|Hin]; [done|]);
      by apply elem_of_nil in Hin.
  - unfold throw. simpl. split; [done|]. exists []. split; [done|].
    intros userVisibleOnly key Hin. by apply elem_of_nil in Hin.
Qed.
